(** * ttcBusTracker: route loading and distance lookup

    A shallow embedding of [ttcBusTracker.py] and the properties of its two
    entry points, [BusRoute.__init__] and [GMapsRoute].  The file holds two
    versions of the module, one after the other, between the markers of a
    merge that was never resolved; the embedding follows the first one
    (lines 1-272), the one that groups the stops of a route by heading.

    The network and the XML parser are collaborators of the program: a
    request is a function from the URL to the parsed element tree (or to the
    exception that [urlopen] or [parse] raised).  Python's builtins [float]
    and [str] on floating-point numbers are parameters of the development. *)

From Stdlib Require Import Ascii String ZArith.
From stdpp Require Import base option list strings gmap pretty.

Set Warnings "-clear-no-such-hyp".

(** ** Exceptions and results *)

(** The exceptions the program can raise, each with the text of its
    message, as Python 3.4 words it (the version the module names).
    [NoRouteError] is the program's own class, the others are builtins. *)
Inductive exn :=
  | NoRouteError (msg : string)
  | NameError (msg : string)
  | UnboundLocalError (msg : string)
  | KeyError (msg : string)
  | IndexError (msg : string)
  | TypeError (msg : string)
  | ValueError (msg : string)
  | AttributeError (msg : string)
  | OtherError (msg : string).

Global Instance exn_eq_dec : EqDecision exn.
Proof. solve_decision. Defined.

(** A computation either returns a value or raises. *)
Inductive result (A : Type) :=
  | Ok (a : A)
  | Raise (e : exn).
Arguments Ok {A} a.
Arguments Raise {A} e.

Global Instance result_ret : MRet result := λ A a, Ok a.
Global Instance result_bind : MBind result := λ A B f m,
  match m with
  | Ok a => f a
  | Raise e => Raise e
  end.

Definition is_Ok {A} (m : result A) : Prop := ∃ a, m = Ok a.

(** [for x in l: body], the loop body acting on the state [s]. *)
Fixpoint for_each {A S : Type} (l : list A) (body : A → S → result S) (s : S)
    : result S :=
  match l with
  | [] => Ok s
  | x :: l' => s' ← body x s; for_each l' body s'
  end.

(** ** Element trees (xml.etree.ElementTree) *)

#[warnings="-register-all"]
Inductive Element := mkElement {
  tag : string;
  attrib : gmap string string;
  text : option string;
  children : list Element
}.

(** [e.findall(t)] for a plain tag name [t]: the direct children of [e]
    with that tag, in document order. *)
Definition findall (t : string) (e : Element) : list Element :=
  filter (λ c, tag c = t) (children e).

(** [e.find(t)]: the first such child, or [None]. *)
Definition find (t : string) (e : Element) : option Element :=
  head (findall t e).

(** [e.get(k)]: the attribute, or [None]. *)
Definition get (k : string) (e : Element) : option string :=
  attrib e !! k.

(** [e.attrib[k]] *)
Definition attrib_getitem (e : Element) (k : string) : result string :=
  match attrib e !! k with
  | Some v => Ok v
  | None => Raise (KeyError k)
  end.

(** [e[i]] for a constant index [i >= 0] *)
Definition getitem (e : Element) (i : nat) : result Element :=
  match children e !! i with
  | Some c => Ok c
  | None => Raise (IndexError "child index out of range")
  end.

(** [x[i]] where [x] is the outcome of [find]: [None] is not subscriptable. *)
Definition getitem_opt (x : option Element) (i : nat) : result Element :=
  match x with
  | Some e => getitem e i
  | None => Raise (TypeError "'NoneType' object is not subscriptable")
  end.

(** ** The route-config request *)

(** [str(n)] on an integer is its decimal rendering. *)
Definition str_int (n : Z) : string := pretty n.

Definition route_url (number : Z) : string :=
  "http://webservices.nextbus.com/service/"
  +:+ "publicXMLFeed?command=routeConfig&a=ttc&r="
  +:+ str_int number.

(** *** Reading a URL back

    What the server sees of a URL: the path before the [?], and the query
    as the list of its [key=value] pairs, separated by [&]. *)

Fixpoint split (sep : ascii) (s : string) : list string :=
  match s with
  | EmptyString => [EmptyString]
  | String c s' =>
      if Ascii.eqb c sep then EmptyString :: split sep s'
      else match split sep s' with
           | [] => [String c EmptyString]
           | w :: ws => String c w :: ws
           end
  end.

Definition key_value (kv : string) : option (string * string) :=
  match split "=" kv with
  | [k; v] => Some (k, v)
  | _ => None
  end.

Definition url_path (u : string) : option string :=
  match split "?" u with
  | [p; _] => Some p
  | _ => None
  end.

Definition url_query (u : string) : option (list (option (string * string))) :=
  match split "?" u with
  | [_; q] => Some (key_value <$> split "&" q)
  | _ => None
  end.

Fixpoint string_forall (P : ascii → Prop) (s : string) : Prop :=
  match s with
  | EmptyString => True
  | String c s' => P c ∧ string_forall P s'
  end.

(** The fields [l] of a string, once [s] is written after it. *)
Fixpoint extend_last (l : list string) (s : string) : list string :=
  match l with
  | [] => [s]
  | [w] => [w +:+ s]
  | w :: l' => w :: extend_last l' s
  end.

(** *** Reading a decimal back

    The number that a string of decimal digits, with a minus sign in front
    for a negative one, stands for. *)

Definition digit_of (c : ascii) : option N := N.of_nat <$> Ascii.is_nat c.

Fixpoint digits_value (acc : N) (s : string) : option N :=
  match s with
  | EmptyString => Some acc
  | String c s' => d ← digit_of c; digits_value (acc * 10 + d) s'
  end.

Definition natural_value (s : string) : option N :=
  match s with
  | EmptyString => None
  | _ => digits_value 0 s
  end.

Definition decimal_value (s : string) : option Z :=
  match natural_value s with
  | Some v => Some (Z.of_N v)
  | None =>
      match s with
      | String "-" s' => (λ v, - Z.of_N v)%Z <$> natural_value s'
      | _ => None
      end
  end.

(** The characters of a decimal rendering. *)
Definition decimal_char (c : ascii) : Prop :=
  c = "-"%char ∨ ∃ d, (d < 10)%N ∧ c = pretty_N_char d.

(** ** Stops and routes *)

Section Program.
(** The floating-point numbers and Python's [float] on a string: [None]
    where [float] raises [ValueError]. *)
Context {F : Type} (float : string → option F).
(** The coordinates handed to the distance lookup, and [str] on them. *)
Context {C : Type} (str : C → string).
(** Fetching a URL and parsing the answer. *)
Context (web : string → result Element).

(** [float(x)] where [x] is the outcome of [get]. *)
Definition py_float (x : option string) : result F :=
  match x with
  | None =>
      Raise (TypeError "float() argument must be a string or a number, not 'NoneType'")
  | Some s =>
      match float s with
      | Some f => Ok f
      | None => Raise (ValueError ("could not convert string to float: '" +:+ s +:+ "'"))
      end
  end.

Record BusStop := mkBusStop {
  _tag : option string;
  _id : option string;
  intersection : option string;
  coordinates : F * F;
  route : string
}.

(** [BusStop.__init__(self, route, stop_id, intersection, coordinates, tag)] *)
Definition BusStop_init (route : string) (stop_id intersection : option string)
    (coordinates : F * F) (tag : option string) : BusStop :=
  {| _tag := tag; _id := stop_id; intersection := intersection;
     coordinates := coordinates; route := route |}.

(** A route under construction.  A directional attribute that has not
    been assigned is [None]: the object has no such attribute. *)
Record BusRoute := mkBusRoute {
  number : Z;
  name : string;
  bus_stops : list BusStop;
  north_stops : option (list BusStop);
  south_stops : option (list BusStop);
  east_stops : option (list BusStop);
  west_stops : option (list BusStop)
}.

Definition set_bus_stops (l : list BusStop) (r : BusRoute) : BusRoute :=
  {| number := number r; name := name r; bus_stops := l;
     north_stops := north_stops r; south_stops := south_stops r;
     east_stops := east_stops r; west_stops := west_stops r |}.
Definition set_north_stops (l : list BusStop) (r : BusRoute) : BusRoute :=
  {| number := number r; name := name r; bus_stops := bus_stops r;
     north_stops := Some l; south_stops := south_stops r;
     east_stops := east_stops r; west_stops := west_stops r |}.
Definition set_south_stops (l : list BusStop) (r : BusRoute) : BusRoute :=
  {| number := number r; name := name r; bus_stops := bus_stops r;
     north_stops := north_stops r; south_stops := Some l;
     east_stops := east_stops r; west_stops := west_stops r |}.
Definition set_east_stops (l : list BusStop) (r : BusRoute) : BusRoute :=
  {| number := number r; name := name r; bus_stops := bus_stops r;
     north_stops := north_stops r; south_stops := south_stops r;
     east_stops := Some l; west_stops := west_stops r |}.
Definition set_west_stops (l : list BusStop) (r : BusRoute) : BusRoute :=
  {| number := number r; name := name r; bus_stops := bus_stops r;
     north_stops := north_stops r; south_stops := south_stops r;
     east_stops := east_stops r; west_stops := Some l |}.

(** Reading a directional attribute of a finished route. *)
Definition getattr_stops (field : BusRoute → option (list BusStop))
    (attr : string) (r : BusRoute) : result (list BusStop) :=
  match field r with
  | Some l => Ok l
  | None =>
      Raise (AttributeError ("'BusRoute' object has no attribute '" +:+ attr +:+ "'"))
  end.

(** The frame of [BusRoute.__init__]: the object and the local [stop],
    the variable of the loop over the stop elements, which stays bound
    (to the last element iterated over) after that loop and is unbound
    before its first iteration. *)
Record frame := mkFrame {
  self : BusRoute;
  stop : option Element
}.

Definition load_stop (fr_stop : option Element) : result Element :=
  match fr_stop with
  | Some e => Ok e
  | None =>
      Raise (UnboundLocalError
               "local variable 'stop' referenced before assignment")
  end.

(** The body of the loop over the stop elements of a route:
    [self.bus_stops.append(BusStop(self.name, stop.get('stopId'),
    stop.get('title'), (float(stop.get('lat')), float(stop.get('lon'))),
    stop.get('tag')))]. *)
Definition stop_body (stop_el : Element) (fr : frame) : result frame :=
  let r := self fr in
  lat ← py_float (get "lat" stop_el);
  lon ← py_float (get "lon" stop_el);
  let bs := BusStop_init (name r) (get "stopId" stop_el) (get "title" stop_el)
              (lat, lon) (get "tag" stop_el) in
  Ok {| self := set_bus_stops (bus_stops r ++ [bs]) r; stop := Some stop_el |}.

(** [if stop.get('tag') == bus_stop._tag: collection.append(bus_stop)]:
    the left operand reads the local [stop], not the variable of the
    enclosing loop over the direction's stop references. *)
Definition match_body (fr_stop : option Element) (bus_stop : BusStop)
    (collection : list BusStop) : result (list BusStop) :=
  s ← load_stop fr_stop;
  if decide (get "tag" s = _tag bus_stop) then Ok (collection ++ [bus_stop])
  else Ok collection.

(** [for tag in direction.findall("stop"): for bus_stop in self.bus_stops: ...]
    starting from the freshly assigned empty list. *)
Definition collect (fr : frame) (direction : Element) : result (list BusStop) :=
  for_each (findall "stop" direction)
    (λ _tag_el collection,
       for_each (bus_stops (self fr)) (match_body (stop fr)) collection)
    [].

(** [title[0]] where [title] is the outcome of [get].  A string is
    modelled by its UTF-8 bytes; its first character equals one of the
    ASCII letters N, E, S exactly when its first byte does. *)
Definition first_char (title : option string) : result ascii :=
  match title with
  | None => Raise (TypeError "'NoneType' object is not subscriptable")
  | Some EmptyString => Raise (IndexError "string index out of range")
  | Some (String c _) => Ok c
  end.

(** The body of the loop over the direction elements of a route. *)
Definition direction_body (direction : Element) (fr : frame) : result frame :=
  let title := get "title" direction in
  _orientation ← first_char title;
  if Ascii.eqb _orientation "N" then
    l ← collect fr direction;
    Ok {| self := set_north_stops l (self fr); stop := stop fr |}
  else if Ascii.eqb _orientation "E" then
    l ← collect fr direction;
    Ok {| self := set_east_stops l (self fr); stop := stop fr |}
  else if Ascii.eqb _orientation "S" then
    l ← collect fr direction;
    Ok {| self := set_south_stops l (self fr); stop := stop fr |}
  else
    l ← collect fr direction;
    Ok {| self := set_west_stops l (self fr); stop := stop fr |}.

(** The body of [for route in _doc.findall('route')]. *)
Definition route_body (route_el : Element) (fr : frame) : result frame :=
  fr' ← for_each (findall "stop" route_el) stop_body fr;
  for_each (findall "direction" route_el) direction_body fr'.

(** The name [route_name], read by the handler below, is bound nowhere:
    the parameter of [__init__] is [route_no], and the module has no
    global and Python no builtin of that name. *)
Definition load_route_name : result Z :=
  Raise (NameError "name 'route_name' is not defined").

(** [except KeyError: error = "..." + str(route_name); raise NoRouteError(error)] *)
Definition no_title_handler : result string :=
  route_name ← load_route_name;
  Raise (NoRouteError
           ("There is no TTC Bus Route corresponding to the number "
            +:+ str_int route_name)).

(** [try: self.name = _doc.getroot()[0].attrib['title'] except KeyError: ...] *)
Definition read_name (_doc : Element) : result string :=
  first ← getitem _doc 0;
  match attrib_getitem first "title" with
  | Ok t => Ok t
  | Raise (KeyError _) => no_title_handler
  | Raise e => Raise e
  end.

(** [BusRoute.__init__] from the parsed document on. *)
Definition BusRoute_of_doc (route_no : Z) (_doc : Element) : result BusRoute :=
  name ← read_name _doc;
  let self0 :=
    {| number := route_no; name := name; bus_stops := [];
       north_stops := None; south_stops := None;
       east_stops := None; west_stops := None |} in
  fr ← for_each (findall "route" _doc) route_body
         {| self := self0; stop := None |};
  Ok (self fr).

(** [BusRoute(route_no)] *)
Definition BusRoute_init (route_no : Z) : result BusRoute :=
  _doc ← web (route_url route_no);
  BusRoute_of_doc route_no _doc.

(** ** The distance lookup *)

(** [str(point[0])+','+str(point[1])] *)
Definition format_point (point : C * C) : string :=
  str point.1 +:+ "," +:+ str point.2.

Definition GMaps_url (point_A point_B : C * C) (key : string) : string :=
  let origin := format_point point_A in
  let destination := format_point point_B in
  "https://maps.googleapis.com/maps/api/distancematrix/xml?"
  +:+ "origins=" +:+ origin
  +:+ "&destinations=" +:+ destination
  +:+ "&mode=transit"
  +:+ "&key=" +:+ key.

(** [doc.find('row')[0][i][1].text] *)
Definition row_text (doc : Element) (i : nat) : result (option string) :=
  e0 ← getitem_opt (find "row" doc) 0;
  e1 ← getitem e0 i;
  e2 ← getitem e1 1;
  Ok (text e2).

(** [GMapsRoute] from the parsed response on. *)
Definition GMapsRoute_of_doc (doc : Element)
    : result (option string * option string) :=
  time ← row_text doc 1;
  distance ← row_text doc 2;
  Ok (distance, time).

(** [GMapsRoute(point_A, point_B, key)] *)
Definition GMapsRoute (point_A point_B : C * C) (key : string)
    : result (option string * option string) :=
  doc ← web (GMaps_url point_A point_B key);
  GMapsRoute_of_doc doc.
End Program.

(** ** The vocabulary of the specification *)

(** The stop elements of a feed: the [stop] children of the [route]
    children of the root, in document order. *)
Definition feed_stops (_doc : Element) : list Element :=
  route_el ← findall "route" _doc; findall "stop" route_el.

(** The direction elements of a feed, likewise. *)
Definition feed_directions (_doc : Element) : list Element :=
  route_el ← findall "route" _doc; findall "direction" route_el.

(** The stop that a stop element describes, for a route called [name]. *)
Definition stop_of_element {F} (float : string → option F) (name : string)
    (e : Element) : option (BusStop (F:=F)) :=
  lat ← get "lat" e ≫= float;
  lon ← get "lon" e ≫= float;
  Some (BusStop_init name (get "stopId" e) (get "title" e) (lat, lon)
          (get "tag" e)).

(** The four headings, and the one a heading code stands for: N, S and E
    for themselves, every other character for west. *)
Inductive heading := North | South | East | West.

Global Instance heading_eq_dec : EqDecision heading.
Proof. solve_decision. Defined.

Definition heading_of (c : ascii) : heading :=
  if decide (c = "N"%char) then North
  else if decide (c = "S"%char) then South
  else if decide (c = "E"%char) then East
  else West.

Definition collection_of {F} (h : heading) (r : BusRoute (F:=F))
    : option (list BusStop) :=
  match h with
  | North => north_stops r
  | South => south_stops r
  | East => east_stops r
  | West => west_stops r
  end.

(** Assigning the attribute of a heading. *)
Definition set_collection {F} (h : heading) (l : list (BusStop (F:=F)))
    (r : BusRoute) : BusRoute :=
  match h with
  | North => set_north_stops l r
  | South => set_south_stops l r
  | East => set_east_stops l r
  | West => set_west_stops l r
  end.

Definition attribute_of (h : heading) : string :=
  match h with
  | North => "north_stops"
  | South => "south_stops"
  | East => "east_stops"
  | West => "west_stops"
  end.

(** The heading code of a direction element, when its title has one. *)
Definition heading_code (direction : Element) : option ascii :=
  match get "title" direction with
  | Some (String c _) => Some c
  | _ => None
  end.

(** A stop element and the stop built from it, for the route [nm]. *)
Definition built_from {F} (float : string → option F) (nm : string)
    (e : Element) (bs : BusStop (F:=F)) : Prop :=
  stop_of_element float nm e = Some bs.

(** [d] is a direction element of heading [h]. *)
Definition has_heading (h : heading) (d : Element) : Prop :=
  ∃ c, heading_code d = Some c ∧ heading_of c = h.

(** While [stop] is unbound, the route has no stops. *)
Definition stop_bound {F} (fr : frame (F:=F)) : Prop :=
  stop fr = None → bus_stops (self fr) = [].

(** A directional collection only ever holds stops of the route. *)
Definition collections_in_full {F} (fr : frame (F:=F)) : Prop :=
  ∀ h l bs, collection_of h (self fr) = Some l → bs ∈ l → bs ∈ bus_stops (self fr).

(** The failures of [float]. *)
Definition float_error (err : exn) : Prop :=
  (∃ msg, err = ValueError msg)
  ∨ err = TypeError "float() argument must be a string or a number, not 'NoneType'".

(** The two ways in which [title[0]] fails. *)
Definition title_error (e : exn) : Prop :=
  e = TypeError "'NoneType' object is not subscriptable"
  ∨ e = IndexError "string index out of range".

Definition is_NoRouteError (e : exn) : Prop := ∃ msg, e = NoRouteError msg.

(** ** Sample documents

    To run the program on a document, the numeric builtins are read as
    follows: a floating-point number is kept as the plain decimal literal
    that denotes it ([-79.3832]), [float] is restricted to such literals
    (no exponent, [inf], [nan] or surrounding blanks, which Python also
    takes) and [str] gives the literal back. *)

Definition is_digit (c : ascii) : bool :=
  (48 <=? nat_of_ascii c)%nat && (nat_of_ascii c <=? 57)%nat.

Fixpoint all_digits (s : string) : bool :=
  match s with
  | EmptyString => true
  | String c s' => is_digit c && all_digits s'
  end.

Definition unsigned_literal (s : string) : bool :=
  match split "." s with
  | [i] => negb (String.eqb i "") && all_digits i
  | [i; f] => negb (String.eqb i "" && String.eqb f "")
              && all_digits i && all_digits f
  | _ => false
  end.

Definition is_decimal_literal (s : string) : bool :=
  match s with
  | String "-" s' => unsigned_literal s'
  | String "+" s' => unsigned_literal s'
  | _ => unsigned_literal s
  end.

Definition literal_float (s : string) : option string :=
  if is_decimal_literal s then Some s else None.

Definition literal_str (x : string) : string := x.

Definition elem (t : string) (attrs : list (string * string))
    (cs : list Element) : Element :=
  {| tag := t; attrib := list_to_map attrs; text := None; children := cs |}.

Definition text_elem (t : string) (content : string) : Element :=
  {| tag := t; attrib := ∅; text := Some content; children := [] |}.

(** Route 23, "23-Dawes": two stops and a north direction that refers to
    the first of them. *)
Definition dawes_feed : Element :=
  elem "body" [("copyright", "All data copyright Toronto Transit Commission")]
    [ elem "route" [("tag", "23"); ("title", "23-Dawes")]
        [ elem "stop" [("tag", "1001"); ("title", "Main Street Station");
                       ("lat", "43.6890199"); ("lon", "-79.3016799");
                       ("stopId", "14211")] [];
          elem "stop" [("tag", "1002"); ("title", "Dawes Rd At Chapman Ave");
                       ("lat", "43.6924599"); ("lon", "-79.2968");
                       ("stopId", "3407")] [];
          elem "direction" [("tag", "23_0_23"); ("title", "North - 23 Dawes");
                            ("name", "North")]
            [ elem "stop" [("tag", "1001")] [] ] ] ].

Definition dawes_1001 : BusStop (F:=string) :=
  BusStop_init "23-Dawes" (Some "14211") (Some "Main Street Station")
    ("43.6890199", "-79.3016799") (Some "1001").

Definition dawes_1002 : BusStop (F:=string) :=
  BusStop_init "23-Dawes" (Some "3407") (Some "Dawes Rd At Chapman Ave")
    ("43.6924599", "-79.2968") (Some "1002").

(** The route that the constructor returns for it. *)
Definition dawes_route : BusRoute (F:=string) :=
  {| number := 23; name := "23-Dawes";
     bus_stops := [dawes_1001; dawes_1002];
     north_stops := Some [dawes_1002];
     south_stops := None; east_stops := None; west_stops := None |}.

(** The answer of the feed for a number that is no route: an error
    element without a title. *)
Definition error_feed : Element :=
  elem "body" [("copyright", "All data copyright Toronto Transit Commission")]
    [ {| tag := "Error"; attrib := {["shouldRetry" := "false"]};
         text := Some "Could not get route 999 for agency tag ttc";
         children := [] |} ].

(** A route with directions of all kinds, one of them titled "Unknown". *)
Definition compass_feed : Element :=
  elem "body" []
    [ elem "route" [("tag", "5"); ("title", "5-Avenue Rd")]
        [ elem "stop" [("tag", "7"); ("title", "A"); ("lat", "43.1");
                       ("lon", "-79.1"); ("stopId", "1")] [];
          elem "stop" [("tag", "8"); ("title", "B"); ("lat", "43.2");
                       ("lon", "-79.2")] [];
          elem "direction" [("title", "South - 5 Avenue Rd")]
            [ elem "stop" [("tag", "7")] []; elem "stop" [("tag", "8")] [] ];
          elem "direction" [("title", "Unknown")]
            [ elem "stop" [("tag", "7")] [] ];
          elem "direction" [("title", "East - 5 Avenue Rd")] [] ] ].

Definition compass_7 : BusStop (F:=string) :=
  BusStop_init "5-Avenue Rd" (Some "1") (Some "A") ("43.1", "-79.1") (Some "7").

Definition compass_8 : BusStop (F:=string) :=
  BusStop_init "5-Avenue Rd" None (Some "B") ("43.2", "-79.2") (Some "8").

(** The route that the constructor returns for it. *)
Definition compass_route : BusRoute (F:=string) :=
  {| number := 5; name := "5-Avenue Rd";
     bus_stops := [compass_7; compass_8];
     north_stops := None;
     south_stops := Some [compass_8; compass_8];
     east_stops := Some [];
     west_stops := Some [compass_8] |}.

(** Its direction titled "Unknown", which refers to the stop tagged 7. *)
Definition unknown_direction : Element :=
  elem "direction" [("title", "Unknown")] [ elem "stop" [("tag", "7")] [] ].

(** The frame in which the constructor reaches [unknown_direction] in
    [compass_feed]. *)
Definition compass_frame : frame (F:=string) :=
  let b7 := BusStop_init "5-Avenue Rd" (Some "1") (Some "A") ("43.1", "-79.1")
              (Some "7") in
  let b8 := BusStop_init "5-Avenue Rd" None (Some "B") ("43.2", "-79.2")
              (Some "8") in
  {| self := {| number := 5; name := "5-Avenue Rd"; bus_stops := [b7; b8];
                north_stops := None; south_stops := Some [b8; b8];
                east_stops := None; west_stops := None |};
     stop := Some (elem "stop" [("tag", "8"); ("title", "B"); ("lat", "43.2");
                                ("lon", "-79.2")] []) |}.

(** A direction element without a title. *)
Definition untitled_direction_feed : Element :=
  elem "body" []
    [ elem "route" [("tag", "5"); ("title", "5-Avenue Rd")]
        [ elem "stop" [("tag", "7"); ("title", "A"); ("lat", "43.1");
                       ("lon", "-79.1"); ("stopId", "1")] [];
          elem "direction" [("name", "North")]
            [ elem "stop" [("tag", "7")] [] ] ] ].

(** A distance-matrix response. *)
Definition canned_response : Element :=
  elem "DistanceMatrixResponse" []
    [ text_elem "status" "OK";
      text_elem "origin_address" "Toronto, ON, Canada";
      text_elem "destination_address" "Scarborough, ON, Canada";
      elem "row" []
        [ elem "element" []
            [ text_elem "status" "OK";
              elem "duration" []
                [ text_elem "value" "720"; text_elem "text" "12 mins" ];
              elem "distance" []
                [ text_elem "value" "3400"; text_elem "text" "3.4 km" ] ] ] ].

(** A collaborator that serves one document at one URL. *)
Definition serve (url : string) (doc : Element) (u : string) : result Element :=
  if decide (u = url) then Ok doc
  else Raise (OtherError "HTTP Error 404: Not Found").

(** ** The temporary files

    Both entry points write the body of the answer to a file of the working
    directory and parse that file.  The directory is a map from file names
    to contents.  What the network and the file system do is given by the
    environment: each call can succeed or raise, and a write that raises
    can leave a part of the data behind. *)

Definition route_file_name (number : Z) : string :=
  "rt" +:+ str_int number +:+ ".xml".

Section Files.
Context {F : Type} (float : string → option F).
Context {C : Type} (str : C → string).
(** The answers of the network, [urlopen(url)], and reading the body of
    one, [answer.read()]. *)
Context {R : Type} (urlopen : string → result R) (read : R → result string).
(** [open(name,'wb')] in a directory: [Some e] when it raises [e] (the
    directory is left as it is), [None] when it returns (the file is then
    there and empty). *)
Context (open_wb : gmap string string → string → option exn).
(** [_file.write(data); _file.close()] on the file opened: [None] when
    both return (the file then holds [data]), [Some (e, part)] when one of
    them raises [e] with [part] of the data in the file. *)
Context (write_close : gmap string string → string → string → option (exn * string)).
(** Opening a file for reading: [Some e] when it raises [e]. *)
Context (open_rb : gmap string string → string → option exn).
(** The parser, on the content of a file. *)
Context (parse_bytes : string → result Element).

(** [_file = open(name,'wb')] *)
Definition open_file (name : string) (fs : gmap string string)
    : gmap string string * result () :=
  match open_wb fs name with
  | Some e => (fs, Raise e)
  | None => (<[name := ""]> fs, Ok ())
  end.

(** [_file.write(data); _file.close()] *)
Definition write_file (name data : string) (fs : gmap string string)
    : gmap string string * result () :=
  match write_close fs name data with
  | Some (e, part) => (<[name := part]> fs, Raise e)
  | None => (<[name := data]> fs, Ok ())
  end.

(** [parse(name)] *)
Definition parse_file (name : string) (fs : gmap string string) : result Element :=
  match open_rb fs name with
  | Some e => Raise e
  | None =>
      match fs !! name with
      | Some data => parse_bytes data
      | None =>
          Raise (OtherError ("[Errno 2] No such file or directory: '" +:+ name +:+ "'"))
      end
  end.

(** [BusRoute(route_no)], with the directory before and after: the answer
    is fetched and read, then the file is opened, written and parsed. *)
Definition BusRoute_init_files (route_no : Z) (fs : gmap string string)
    : gmap string string * result BusRoute :=
  match urlopen (route_url route_no) ≫= read with
  | Raise e => (fs, Raise e)
  | Ok data =>
      let _file_name := route_file_name route_no in
      match open_file _file_name fs with
      | (fs1, Raise e) => (fs1, Raise e)
      | (fs1, Ok _) =>
          match write_file _file_name data fs1 with
          | (fs2, Raise e) => (fs2, Raise e)
          | (fs2, Ok _) =>
              (fs2, _doc ← parse_file _file_name fs2;
                    BusRoute_of_doc float route_no _doc)
          end
      end
  end.

(** [GMapsRoute(point_A, point_B, key)], with the directory before and
    after: the answer is fetched, the file opened, the answer read and
    written, and the file parsed once for each of the two texts. *)
Definition GMapsRoute_files (point_A point_B : C * C) (key : string)
    (fs : gmap string string)
    : gmap string string * result (option string * option string) :=
  match urlopen (GMaps_url str point_A point_B key) with
  | Raise e => (fs, Raise e)
  | Ok _xml =>
      let file_name := "map.xml" in
      match open_file file_name fs with
      | (fs1, Raise e) => (fs1, Raise e)
      | (fs1, Ok _) =>
          match read _xml with
          | Raise e => (fs1, Raise e)
          | Ok data =>
              match write_file file_name data fs1 with
              | (fs2, Raise e) => (fs2, Raise e)
              | (fs2, Ok _) =>
                  (fs2, time ← (doc ← parse_file file_name fs2; row_text doc 1);
                        distance ← (doc ← parse_file file_name fs2; row_text doc 2);
                        Ok (distance, time))
              end
          end
      end
  end.
End Files.

(** The network and the parser, one after the other. *)
Definition fetch_parse {R} (urlopen : string → result R)
    (read : R → result string) (parse_bytes : string → result Element)
    (url : string) : result Element :=
  answer ← urlopen url; data ← read answer; parse_bytes data.

(** An environment in which every file can be written and read. *)
Definition always_open (fs : gmap string string) (name : string) : option exn :=
  None.
Definition always_written (fs : gmap string string) (name data : string)
    : option (exn * string) :=
  None.

(** An environment in which no file can be opened for writing. *)
Definition never_open (fs : gmap string string) (name : string) : option exn :=
  Some (OtherError ("[Errno 13] Permission denied: '" +:+ name +:+ "'")).

(** ** The second version of the module (lines 275-488)

    It has no tags and no directions: a stop has four attributes, a route
    keeps its stops in [_bus_stops] and has the two methods [bus_stops] and
    [bus_stop_coordinates]. *)

Module Second.
Section Program.
Context {F : Type} (float : string → option F).
Context (web : string → result Element).

Record BusStop := mkBusStop {
  _id : option string;
  intersection : option string;
  coordinates : F * F;
  route : string
}.

(** [BusStop.__init__(self, route, stop_id, intersection, coordinates)] *)
Definition BusStop_init (route : string) (stop_id intersection : option string)
    (coordinates : F * F) : BusStop :=
  {| _id := stop_id; intersection := intersection;
     coordinates := coordinates; route := route |}.

Record BusRoute := mkBusRoute {
  number : Z;
  name : string;
  _bus_stops : list BusStop
}.

(** [self._bus_stops.append(BusStop(self.name, stop.get('stopId'),
    stop.get('title'), (float(stop.get('lat')), float(stop.get('lon')))))] *)
Definition stop_body (stop_el : Element) (r : BusRoute) : result BusRoute :=
  lat ← py_float float (get "lat" stop_el);
  lon ← py_float float (get "lon" stop_el);
  let bs := BusStop_init (name r) (get "stopId" stop_el) (get "title" stop_el)
              (lat, lon) in
  Ok {| number := number r; name := name r;
        _bus_stops := _bus_stops r ++ [bs] |}.

(** The body of [for route in _doc.findall('route')]. *)
Definition route_body (route_el : Element) (r : BusRoute) : result BusRoute :=
  for_each (findall "stop" route_el) stop_body r.

(** [BusRoute.__init__] from the parsed document on; the title is read as
    in the first version, handler included. *)
Definition BusRoute_of_doc (route_no : Z) (_doc : Element) : result BusRoute :=
  name ← read_name _doc;
  for_each (findall "route" _doc) route_body
    {| number := route_no; name := name; _bus_stops := [] |}.

(** [BusRoute(route_no)] *)
Definition BusRoute_init (route_no : Z) : result BusRoute :=
  _doc ← web (route_url route_no);
  BusRoute_of_doc route_no _doc.

(** [BusRoute.bus_stops]:
    [return [stop.intersection for stop in self._bus_stops]] *)
Definition bus_stops (r : BusRoute) : list (option string) :=
  intersection <$> _bus_stops r.

(** [BusRoute.bus_stop_coordinates]:
    [return [stop.coordinates for stop in self._bus_stops]] *)
Definition bus_stop_coordinates (r : BusRoute) : list (F * F) :=
  coordinates <$> _bus_stops r.
End Program.
End Second.

(** A stop of the first version, without its tag. *)
Definition untagged {F} (bs : BusStop (F:=F)) : Second.BusStop (F:=F) :=
  Second.BusStop_init (route bs) (_id bs) (intersection bs) (coordinates bs).

(** The stop that the second version builds from a stop element. *)
Definition second_built_from {F} (float : string → option F) (nm : string)
    (e : Element) (bs : Second.BusStop (F:=F)) : Prop :=
  ∃ lat lon, get "lat" e ≫= float = Some lat ∧ get "lon" e ≫= float = Some lon
             ∧ bs = Second.BusStop_init nm (get "stopId" e) (get "title" e)
                      (lat, lon).

(** A string without [?], [&] and [=], which a query takes as it is. *)
Definition query_safe (s : string) : Prop :=
  string_forall (λ c, c ≠ "?"%char ∧ c ≠ "&"%char ∧ c ≠ "="%char) s.

(** The answer of the distance service to a request it refuses: a status
    and a message, no row. *)
Definition denied_response : Element :=
  elem "DistanceMatrixResponse" []
    [ text_elem "status" "REQUEST_DENIED";
      text_elem "error_message" "The provided API key is invalid." ].

(** * Properties *)

(** ** Results and loops *)

Lemma bind_Ok {A B} (m : result A) (f : A → result B) b :
  m ≫= f = Ok b ↔ ∃ a, m = Ok a ∧ f a = Ok b.
Proof.
  destruct m as [a|e]; simpl; split.
  - intros H. by exists a.
  - by intros (a' & [= <-] & H).
  - discriminate.
  - by intros (a' & [=] & ?).
Qed.

Lemma bind_Raise {A B} (m : result A) (f : A → result B) e :
  m ≫= f = Raise e ↔ m = Raise e ∨ ∃ a, m = Ok a ∧ f a = Raise e.
Proof.
  destruct m as [a|e']; simpl; split.
  - intros H. right. by exists a.
  - intros [[=]|(a' & [= <-] & H)]. done.
  - intros [= ->]. by left.
  - intros [[= ->]|(a' & [=] & ?)]. done.
Qed.

(** Take a successful (or failed) sequence of steps apart. *)
Ltac inv_bind H :=
  repeat match type of H with
  | _ ≫= _ = Ok _ =>
      let a := fresh "a" in
      let H1 := fresh H in
      apply bind_Ok in H as (a & H1 & H)
  | Ok _ = Ok _ => injection H as H
  | Raise _ = Ok _ => discriminate H
  end.

Section Loops.
Context {A S : Type}.
Implicit Types (body : A → S → result S) (l : list A).

(** A property that every successful iteration keeps holds after the
    loop. *)
Lemma for_each_invariant (P : S → Prop) body l s s' :
  (∀ x t t', x ∈ l → P t → body x t = Ok t' → P t') →
  P s → for_each l body s = Ok s' → P s'.
Proof.
  revert s. induction l as [|x l IH]; intros s Hstep Hs Hrun; simpl in Hrun.
  - by injection Hrun as <-.
  - apply bind_Ok in Hrun as (t & Hx & Hrun).
    eapply IH; [|by eapply Hstep; [left|..]|done].
    intros y u u' Hy. apply Hstep. by right.
Qed.

(** An exception that leaves the loop was raised by an iteration. *)
Lemma for_each_Raise body l s e :
  for_each l body s = Raise e → ∃ x t, x ∈ l ∧ body x t = Raise e.
Proof.
  revert s. induction l as [|x l IH]; intros s Hrun; simpl in Hrun; [done|].
  apply bind_Raise in Hrun as [Hx|(t & Hx & Hrun)].
  - exists x, s. split; [left|done].
  - destruct (IH _ Hrun) as (y & u & Hy & Hu). exists y, u. split; [by right|done].
Qed.

(** The same, with the state in which it was raised satisfying any
    invariant of the loop. *)
Lemma for_each_Raise_inv (P : S → Prop) body l s e :
  (∀ x t t', x ∈ l → P t → body x t = Ok t' → P t') →
  P s → for_each l body s = Raise e → ∃ x t, x ∈ l ∧ P t ∧ body x t = Raise e.
Proof.
  revert s. induction l as [|x l IH]; intros s Hstep Hs Hrun; simpl in Hrun;
    [done|].
  apply bind_Raise in Hrun as [Hx|(t & Hx & Hrun)].
  - exists x, s. split; [left|done].
  - destruct (IH t) as (y & u & Hy & Hu & Hraise); [|by eapply Hstep; [left|..]|done|].
    + intros y u u' Hy. apply Hstep. by right.
    + exists y, u. split; [by right|done].
Qed.

End Loops.

(** ** The URL of the route-config request *)

Lemma string_forall_impl (P Q : ascii → Prop) s :
  (∀ c, P c → Q c) → string_forall P s → string_forall Q s.
Proof.
  intros HPQ. induction s as [|c s IH]; simpl; [done|].
  intros [Hc Hs]. split; auto.
Qed.

(** A string without the separator is one field. *)
Lemma split_no_sep sep s :
  string_forall (λ c, c ≠ sep) s → split sep s = [s].
Proof.
  induction s as [|c s IH]; simpl; [done|]. intros [Hc Hs].
  rewrite IH by done. by apply Ascii.eqb_neq in Hc as ->.
Qed.

Lemma pretty_N_char_decimal d : (d < 10)%N → decimal_char (pretty_N_char d).
Proof. intros Hd. right. by exists d. Qed.

Lemma pretty_N_go_decimal x s :
  string_forall decimal_char s → string_forall decimal_char (pretty_N_go x s).
Proof.
  revert s. induction (N.lt_wf_0 x) as [x _ IH]; intros s Hs.
  assert (x = 0 ∨ 0 < x)%N as [->|Hx] by lia; [done|].
  rewrite pretty_N_go_step by done. apply IH; [by apply N.div_lt|].
  split; [|done]. apply pretty_N_char_decimal. by apply N.mod_lt.
Qed.

Lemma pretty_N_decimal (x : N) : string_forall decimal_char (pretty x).
Proof.
  unfold pretty, pretty_N. case_decide.
  - split; [|done]. right. by exists 0%N.
  - by apply pretty_N_go_decimal.
Qed.

(** The decimal rendering of an integer is made of digits and, for a
    negative one, a leading minus sign. *)
Lemma str_int_decimal n : string_forall decimal_char (str_int n).
Proof.
  unfold str_int, pretty, pretty_Z. destruct n as [|p|p].
  - split; [|done]. right. by exists 0%N.
  - apply pretty_N_decimal.
  - split; [by left|]. apply (pretty_N_decimal (Npos p)).
Qed.

Lemma decimal_char_cases c :
  decimal_char c →
  c ∈ ["-"; "0"; "1"; "2"; "3"; "4"; "5"; "6"; "7"; "8"; "9"]%char.
Proof.
  intros [->|(d & Hd & ->)]; [set_solver|].
  assert (d = 0 ∨ d = 1 ∨ d = 2 ∨ d = 3 ∨ d = 4 ∨ d = 5 ∨ d = 6 ∨ d = 7
          ∨ d = 8 ∨ d = 9)%N as Hcases by lia.
  repeat destruct Hcases as [->|Hcases]; [set_solver..|subst d; set_solver].
Qed.

Lemma decimal_char_no_sep c sep :
  sep ∈ ["?"; "&"; "="]%char → decimal_char c → c ≠ sep.
Proof.
  intros Hsep Hc%decimal_char_cases ->.
  repeat (apply elem_of_cons in Hsep as [->|Hsep];
          [by repeat (apply elem_of_cons in Hc as [?|Hc]; [done|]);
              apply elem_of_nil in Hc|]).
  by apply elem_of_nil in Hsep.
Qed.

Lemma split_nonempty sep s : split sep s ≠ [].
Proof.
  destruct s as [|c s]; simpl; [done|].
  destruct (Ascii.eqb c sep); [done|]. by destruct (split sep s).
Qed.

(** Splitting a string that ends in a field without separator. *)
Lemma split_app sep pre s :
  split sep s = [s] →
  split sep (pre +:+ s) = extend_last (split sep pre) s.
Proof.
  intros Hs. induction pre as [|c pre IH]; simpl; [done|].
  rewrite IH. pose proof (split_nonempty sep pre) as Hne.
  destruct (Ascii.eqb c sep), (split sep pre) as [|w [|w' ws]]; done.
Qed.

Lemma digit_of_pretty_N_char d :
  (d < 10)%N → digit_of (pretty_N_char d) = Some d.
Proof.
  intros Hd.
  assert (d = 0 ∨ d = 1 ∨ d = 2 ∨ d = 3 ∨ d = 4 ∨ d = 5 ∨ d = 6 ∨ d = 7
          ∨ d = 8 ∨ d = 9)%N as Hcases by lia.
  repeat destruct Hcases as [->|Hcases]; [done..|by subst d].
Qed.

(** Reading the digits that [pretty_N_go x] writes in front of [s]
    shifts what has been read by a power of ten and adds [x]. *)
Lemma digits_value_pretty_N_go x s :
  ∃ p, ∀ acc,
    digits_value acc (pretty_N_go x s) = digits_value (acc * p + x) s.
Proof.
  revert s. induction (N.lt_wf_0 x) as [x _ IH]; intros s.
  assert (x = 0 ∨ 0 < x)%N as [->|Hx] by lia.
  - exists 1%N. intros acc. rewrite pretty_N_go_0. f_equal. lia.
  - rewrite pretty_N_go_step by done.
    destruct (IH (x `div` 10)%N (N.div_lt x 10 Hx eq_refl)
                (String (pretty_N_char (x `mod` 10)) s)) as [p Hp].
    exists (p * 10)%N. intros acc. rewrite Hp. simpl.
    rewrite digit_of_pretty_N_char by (by apply N.mod_lt). simpl. f_equal.
    pose proof (N.div_mod x 10 ltac:(done)). lia.
Qed.

Lemma natural_value_pretty (x : N) : natural_value (pretty x) = Some x.
Proof.
  unfold pretty, pretty_N. case_decide as Hx; [by subst x|].
  destruct (digits_value_pretty_N_go x "") as [p Hp].
  specialize (Hp 0%N). simpl in Hp. unfold natural_value.
  destruct (pretty_N_go x "") as [|c s] eqn:Hgo; [|done].
  simpl in Hp. injection Hp as Hp. lia.
Qed.

Lemma decimal_value_minus s :
  decimal_value (String "-" s) = (λ v, - Z.of_N v)%Z <$> natural_value s.
Proof. done. Qed.

(** The decimal rendering of an integer reads back as that integer. *)
Lemma decimal_value_str_int n : decimal_value (str_int n) = Some n.
Proof.
  unfold str_int. destruct n as [|p|p].
  - done.
  - change (pretty (Z.pos p)) with (pretty (N.pos p)).
    unfold decimal_value. by rewrite natural_value_pretty.
  - change (pretty (Z.neg p)) with (String "-" (pretty (N.pos p))).
    rewrite decimal_value_minus. by rewrite natural_value_pretty.
Qed.

(** C8: the request of the route configuration goes to the fixed path
    [.../service/publicXMLFeed] with the query [command=routeConfig],
    [a=ttc] and [r=] the decimal rendering of the route number, and it is
    the document at this URL that the route is built from.  The rendering
    reads back as the number; for route 23 the URL ends in [r=23]. *)
Theorem route_url_query (n : Z) :
  url_path (route_url n)
    = Some "http://webservices.nextbus.com/service/publicXMLFeed"
  ∧ url_query (route_url n)
    = Some [Some ("command", "routeConfig"); Some ("a", "ttc");
            Some ("r", str_int n)]
  ∧ (∀ F (float : string → option F) web,
       BusRoute_init float web n
       = web (route_url n) ≫= BusRoute_of_doc float n)
  ∧ decimal_value (str_int n) = Some n
  ∧ route_url 23
    = "http://webservices.nextbus.com/service/publicXMLFeed?command=routeConfig&a=ttc&r=23"
  ∧ url_query (route_url (-7))
    = Some [Some ("command", "routeConfig"); Some ("a", "ttc"); Some ("r", "-7")].
Proof.
  assert (∀ sep, sep ∈ ["?"; "&"; "="]%char → split sep (str_int n) = [str_int n])
    as Hsplit.
  { intros sep Hsep. apply split_no_sep.
    eapply string_forall_impl; [|apply str_int_decimal].
    intros c Hc. by apply decimal_char_no_sep. }
  split; [|split; [|split; [reflexivity|split; [|split; by vm_compute]]]].
  - unfold url_path, route_url.
    generalize dependent (str_int n). intros s Hsplit.
    change (_ +:+ _ +:+ s) with
      ("http://webservices.nextbus.com/service/publicXMLFeed?command=routeConfig&a=ttc&r="
       +:+ s).
    rewrite split_app by (apply Hsplit; set_solver). done.
  - unfold url_query, route_url.
    generalize dependent (str_int n). intros s Hsplit.
    change (_ +:+ _ +:+ s) with
      ("http://webservices.nextbus.com/service/publicXMLFeed?command=routeConfig&a=ttc&r="
       +:+ s).
    rewrite split_app by (apply Hsplit; set_solver).
    cbn. rewrite split_app by (apply Hsplit; set_solver).
    cbn. unfold key_value. rewrite split_app by (apply Hsplit; set_solver).
    done.
  - apply decimal_value_str_int.
Qed.

(** ** The distance lookup *)

Lemma getitem_Ok e i c : getitem e i = Ok c ↔ children e !! i = Some c.
Proof. unfold getitem. destruct (children e !! i); naive_solver. Qed.

Lemma row_text_Ok doc i t :
  row_text doc i = Ok t
  ↔ ∃ row e0 e1 e2,
      find "row" doc = Some row ∧ children row !! 0%nat = Some e0
      ∧ children e0 !! i = Some e1 ∧ children e1 !! 1%nat = Some e2
      ∧ t = text e2.
Proof.
  unfold row_text. split.
  - intros H. inv_bind H. subst t.
    destruct (find "row" doc) as [row|] eqn:Hrow; [|done].
    apply getitem_Ok in H0, H1, H2. by exists row, a, a0, a1.
  - intros (row & e0 & e1 & e2 & -> & H0 & H1 & H2 & ->).
    apply getitem_Ok in H0, H1, H2. simpl. rewrite H0. simpl.
    rewrite H1. simpl. by rewrite H2.
Qed.

(** C6: the lookup returns the text of the second child of the third child
    (the distance) and of the second child of the second child (the
    duration) of the first child of the first [row], the distance first;
    on the sample response with "12 mins" and "3.4 km" it returns
    [("3.4 km", "12 mins")]. *)
Theorem GMapsRoute_extracts :
  (∀ doc distance time,
     GMapsRoute_of_doc doc = Ok (distance, time)
     ↔ ∃ row e0 dur dis tdur tdis,
         find "row" doc = Some row ∧ children row !! 0%nat = Some e0
         ∧ children e0 !! 1%nat = Some dur ∧ children dur !! 1%nat = Some tdur
         ∧ children e0 !! 2%nat = Some dis ∧ children dis !! 1%nat = Some tdis
         ∧ distance = text tdis ∧ time = text tdur)
  ∧ GMapsRoute_of_doc canned_response = Ok (Some "3.4 km", Some "12 mins")
  ∧ (∀ C (str : C → string) web A B key doc,
       web (GMaps_url str A B key) = Ok doc →
       GMapsRoute str web A B key = GMapsRoute_of_doc doc).
Proof.
  split_and!.
  - intros doc distance time. unfold GMapsRoute_of_doc. split.
    + intros H. inv_bind H. simplify_eq.
      apply row_text_Ok in H0 as (row & e0 & dur & tdur & Hrow & He0 & Hdur & Htdur & ->).
      apply row_text_Ok in H1 as (row' & e0' & dis & tdis & Hrow' & He0' & Hdis & Htdis & ->).
      simplify_eq. by exists row, e0, dur, dis, tdur, tdis.
    + intros (row & e0 & dur & dis & tdur & tdis & Hrow & He0 & Hdur & Htdur
              & Hdis & Htdis & -> & ->).
      assert (row_text doc 1 = Ok (text tdur)) as ->
        by (apply row_text_Ok; by exists row, e0, dur, tdur).
      assert (row_text doc 2 = Ok (text tdis)) as ->
        by (apply row_text_Ok; by exists row, e0, dis, tdis).
      done.
  - by vm_compute.
  - intros C str web A B key doc Hweb. unfold GMapsRoute. by rewrite Hweb.
Qed.

Lemma GMapsRoute_extracts_witness :
  GMapsRoute literal_str
    (serve (GMaps_url literal_str ("43.6532", "-79.3832") ("43.7764", "-79.2318") "k")
       canned_response)
    ("43.6532", "-79.3832") ("43.7764", "-79.2318") "k"
  = Ok (Some "3.4 km", Some "12 mins").
Proof.
  rewrite (proj2 (proj2 GMapsRoute_extracts) _ _ _ _ _ _ canned_response).
  - exact (proj1 (proj2 GMapsRoute_extracts)).
  - unfold serve. by rewrite decide_True.
Defined.



(** ** Building a route *)

(** *** Titles *)

Lemma first_char_Ok title c :
  first_char title = Ok c ↔ ∃ rest, title = Some (String c rest).
Proof.
  unfold first_char. destruct title as [[|c' rest]|]; split;
    try done; try (by intros [? [=]]).
  - intros [= ->]. by exists rest.
  - by intros [? [= -> _]].
Qed.

Lemma first_char_heading_code d :
  first_char (get "title" d)
  = match heading_code d with
    | Some c => Ok c
    | None =>
        match get "title" d with
        | None => Raise (TypeError "'NoneType' object is not subscriptable")
        | Some _ => Raise (IndexError "string index out of range")
        end
    end.
Proof. unfold heading_code, first_char. by destruct (get "title" d) as [[|??]|]. Qed.

Lemma first_char_Raise title err :
  first_char title = Raise err → title_error err.
Proof.
  unfold first_char, title_error. destruct title as [[|c' rest]|]; [|done|].
  - intros [= <-]. by right.
  - intros [= <-]. by left.
Qed.

Lemma heading_code_Some d c :
  heading_code d = Some c ↔ ∃ rest, get "title" d = Some (String c rest).
Proof.
  unfold heading_code. destruct (get "title" d) as [[|c' rest]|]; split;
    try done; try (by intros [? [=]]).
  - intros [= ->]. by exists rest.
  - by intros [? [= -> _]].
Qed.

Lemma heading_code_None d :
  heading_code d = None ↔ get "title" d = None ∨ get "title" d = Some "".
Proof.
  unfold heading_code. destruct (get "title" d) as [[|c' rest]|]; split;
    try done; auto.
  by intros [[=]|[=]].
Qed.

Lemma read_name_Ok _doc nm :
  read_name _doc = Ok nm
  ↔ ∃ first, children _doc !! 0%nat = Some first ∧ attrib first !! "title" = Some nm.
Proof.
  unfold read_name, getitem, attrib_getitem, no_title_handler.
  destruct (children _doc !! 0%nat) as [first|]; simpl.
  - destruct (attrib first !! "title") as [t|] eqn:Ht; simpl; split.
    + intros [= ->]. by exists first.
    + intros (? & [= <-] & Hnm). by simplify_eq.
    + done.
    + intros (? & [= <-] & Hnm). by simplify_eq.
  - split; [done|]. by intros (? & [=] & ?).
Qed.

(** Without a title the handler is entered, and reading [route_name]
    raises before the message of [NoRouteError] is built. *)
Lemma read_name_no_title _doc first :
  children _doc !! 0%nat = Some first → attrib first !! "title" = None →
  read_name _doc = Raise (NameError "name 'route_name' is not defined").
Proof.
  intros Hfirst Htitle. unfold read_name, getitem, attrib_getitem.
  by rewrite Hfirst; simpl; rewrite Htitle.
Qed.

Lemma read_name_Raise _doc err :
  read_name _doc = Raise err →
  err = IndexError "child index out of range"
  ∨ err = NameError "name 'route_name' is not defined".
Proof.
  unfold read_name, getitem, attrib_getitem, no_title_handler.
  destruct (children _doc !! 0%nat) as [first|]; simpl.
  - destruct (attrib first !! "title") as [t|]; simpl; [done|].
    intros [= <-]. by right.
  - intros [= <-]. by left.
Qed.

(** *** Direction elements *)

Section Directions.
Context {F : Type}.
Implicit Types (fr : frame (F:=F)) (r : BusRoute (F:=F)).
Implicit Types (bs : BusStop (F:=F)) (h : heading) (d : Element).
Implicit Types (acc : list (BusStop (F:=F))).

Lemma match_body_bound last bs acc :
  match_body (Some last) bs acc
  = Ok (if decide (get "tag" last = _tag bs) then acc ++ [bs] else acc).
Proof. unfold match_body. simpl. by case_decide. Qed.

(** With [stop] bound, the inner loop appends the stops whose tag is
    the tag of [stop]. *)
Lemma match_loop last (l : list (BusStop (F:=F))) acc :
  for_each l (match_body (Some last)) acc
  = Ok (acc ++ filter (λ b, get "tag" last = _tag b) l).
Proof.
  revert acc. induction l as [|b l IH]; intros acc.
  - simpl. by rewrite app_nil_r.
  - cbn [for_each]. rewrite match_body_bound, filter_cons. simpl.
    rewrite IH. case_decide; [|done]. by rewrite <-app_assoc.
Qed.

(** What a direction element collects: for each of its stop references,
    whatever their tags, the stops so far whose tag is that of the stop
    element read last. *)
Lemma collect_bound fr d last :
  stop fr = Some last →
  collect fr d
  = Ok (mjoin (replicate (length (findall "stop" d))
                 (filter (λ b, get "tag" last = _tag b) (bus_stops (self fr))))).
Proof.
  intros Hlast. unfold collect. rewrite Hlast.
  generalize (findall "stop" d). intros refs.
  rewrite <-(app_nil_l (mjoin _)). generalize (@nil (BusStop (F:=F))).
  induction refs as [|ref refs IH]; intros acc.
  - simpl. by rewrite app_nil_r.
  - cbn [for_each replicate]. rewrite match_loop. simpl.
    rewrite IH. by rewrite app_assoc.
Qed.

(** A route without stops: the inner loop has nothing to go through. *)
Lemma collect_unbound fr d :
  bus_stops (self fr) = [] → collect fr d = Ok [].
Proof.
  intros Hnil. unfold collect. rewrite Hnil.
  generalize (findall "stop" d). intros refs.
  by induction refs as [|ref refs IH]; simpl.
Qed.

Lemma match_body_Ok st bs acc acc' :
  match_body st bs acc = Ok acc' → acc' = acc ∨ acc' = acc ++ [bs].
Proof.
  unfold match_body. intros H. inv_bind H.
  case_decide; injection H as <-; auto.
Qed.

Lemma match_body_Raise st bs acc err :
  match_body st bs acc = Raise err →
  err = UnboundLocalError
          "local variable 'stop' referenced before assignment".
Proof.
  unfold match_body, load_stop. destruct st; simpl; [by case_decide|].
  by intros [= <-].
Qed.

Lemma collect_Ok_elem_of fr d l bs :
  collect fr d = Ok l → bs ∈ l → bs ∈ bus_stops (self fr).
Proof.
  unfold collect. intros Hrun.
  revert bs. change (l ⊆ bus_stops (self fr)). revert Hrun.
  apply (for_each_invariant (λ acc, acc ⊆ bus_stops (self fr)));
    [|by intros ? ?%elem_of_nil].
  intros _ acc acc' _.
  apply (for_each_invariant (λ acc, acc ⊆ bus_stops (self fr))).
  intros b acc1 acc2 Hb Hacc1 [->| ->]%match_body_Ok; [done|].
  intros x [?| ->%list_elem_of_singleton]%elem_of_app; auto.
Qed.

Lemma collect_Raise fr d err :
  collect fr d = Raise err →
  err = UnboundLocalError
          "local variable 'stop' referenced before assignment".
Proof.
  unfold collect. intros (ref & acc & _ & H)%for_each_Raise.
  apply for_each_Raise in H as (b & acc' & _ & H). by eapply match_body_Raise.
Qed.

(** The branch taken is the one of the heading that the code stands
    for. *)
Lemma direction_body_eq d fr :
  direction_body d fr
  = (c ← first_char (get "title" d);
     l ← collect fr d;
     Ok {| self := set_collection (heading_of c) l (self fr); stop := stop fr |}).
Proof.
  unfold direction_body. destruct (first_char (get "title" d)) as [c|]; [|done].
  simpl. unfold heading_of.
  destruct (Ascii.eqb_spec c "N") as [->|HN]; [done|].
  destruct (Ascii.eqb_spec c "E") as [->|HE]; [done|].
  destruct (Ascii.eqb_spec c "S") as [->|HS]; [done|].
  by rewrite !decide_False by done.
Qed.

Lemma direction_body_Ok d fr fr' :
  direction_body d fr = Ok fr'
  ↔ ∃ c l, heading_code d = Some c ∧ collect fr d = Ok l
           ∧ fr' = {| self := set_collection (heading_of c) l (self fr);
                      stop := stop fr |}.
Proof.
  rewrite direction_body_eq, first_char_heading_code. split.
  - intros H. inv_bind H. destruct (heading_code d) as [c|]; [|by repeat case_match].
    simplify_eq. by exists a, a0.
  - intros (c & l & -> & Hl & ->). simpl. by rewrite Hl.
Qed.

Lemma direction_body_Raise d fr err :
  direction_body d fr = Raise err →
  (heading_code d = None ∧ title_error err)
  ∨ err = UnboundLocalError
            "local variable 'stop' referenced before assignment".
Proof.
  rewrite direction_body_eq. intros [H|(c & Hc & H)]%bind_Raise.
  - left. split; [|by eapply first_char_Raise].
    rewrite first_char_heading_code in H. by destruct (heading_code d).
  - apply bind_Raise in H as [H|(l & _ & H)]; [|done].
    right. by eapply collect_Raise.
Qed.

(** With [stop] bound whenever the route has stops, reading [stop] never
    fails: a direction element fails only on its title. *)
Lemma direction_body_Raise_bound d fr err :
  stop_bound fr → direction_body d fr = Raise err →
  heading_code d = None ∧ title_error err.
Proof.
  intros Hfr Hrun.
  assert (is_Ok (collect fr d)) as [l Hl].
  { destruct (stop fr) as [last|] eqn:Hstop.
    - eexists. by apply collect_bound.
    - exists []. apply collect_unbound. by apply Hfr. }
  apply direction_body_Raise in Hrun as Hcases.
  destruct Hcases as [?| ->]; [done|]. exfalso. revert Hrun.
  rewrite direction_body_eq, Hl.
  destruct (first_char (get "title" d)) as [c|err] eqn:Hc; simpl; [done|].
  intros [= ->]. by apply first_char_Raise in Hc as [?|?].
Qed.

Lemma collection_of_set h h' l r :
  collection_of h (set_collection h' l r)
  = if decide (h = h') then Some l else collection_of h r.
Proof. by destruct h, h'. Qed.

Lemma bus_stops_set_collection h l r :
  bus_stops (set_collection h l r) = bus_stops r.
Proof. by destruct h. Qed.

Lemma name_set_collection h l r : name (set_collection h l r) = name r.
Proof. by destruct h. Qed.

Lemma number_set_collection h l r : number (set_collection h l r) = number r.
Proof. by destruct h. Qed.

Lemma set_bus_stops_id r : set_bus_stops (bus_stops r ++ []) r = r.
Proof. rewrite app_nil_r. by destruct r. Qed.

Lemma direction_body_stop_bound d fr fr' :
  stop_bound fr → direction_body d fr = Ok fr' → stop_bound fr'.
Proof.
  intros Hfr (c & l & _ & _ & ->)%direction_body_Ok. unfold stop_bound in *.
  simpl. by rewrite bus_stops_set_collection.
Qed.

(** The loop over the direction elements of a route leaves the stops as
    they are, and creates the attributes of the headings it meets. *)
Lemma directions_loop_Ok ds fr fr' :
  for_each ds direction_body fr = Ok fr' →
  name (self fr') = name (self fr) ∧ number (self fr') = number (self fr)
  ∧ bus_stops (self fr') = bus_stops (self fr) ∧ stop fr' = stop fr
  ∧ (∀ d, d ∈ ds → is_Some (heading_code d))
  ∧ ∀ h, is_Some (collection_of h (self fr'))
         ↔ is_Some (collection_of h (self fr)) ∨ ∃ d, d ∈ ds ∧ has_heading h d.
Proof.
  revert fr. induction ds as [|d ds IH]; intros fr Hrun; simpl in Hrun.
  - injection Hrun as <-. split_and!; try done.
    + by intros d ?%elem_of_nil.
    + intros h. split; [by left|]. by intros [?|(d & ?%elem_of_nil & _)].
  - apply bind_Ok in Hrun as (fr1 & (c & l & Hc & Hl & ->)%direction_body_Ok & Hrun).
    apply IH in Hrun as (Hname & Hnumber & Hstops & Hstop & Hcodes & Hsome).
    simpl in *. rewrite Hname, Hnumber, Hstops, Hstop.
    rewrite name_set_collection, number_set_collection, bus_stops_set_collection.
    split_and!; try done.
    { intros d' [->|?]%elem_of_cons; [by exists c|by apply Hcodes]. }
    intros h. rewrite Hsome, collection_of_set.
    unfold has_heading. case_decide as Hh.
    + split; [|by eauto]. intros _. right. exists d. split; [by left|by exists c].
    + split.
      * intros [?|(d' & Hd' & Hhd)]; [by left|].
        right. exists d'. split; [by right|done].
      * intros [?|(d' & [->|?]%elem_of_cons & c' & Hc' & <-)]; [by left| |].
        -- by simplify_eq.
        -- right. exists d'. split; [done|by exists c'].
Qed.

Lemma direction_body_in_full d fr fr' :
  collections_in_full fr → direction_body d fr = Ok fr' → collections_in_full fr'.
Proof.
  intros Hfr (c & l & _ & Hl & ->)%direction_body_Ok h l' bs. simpl.
  rewrite collection_of_set, bus_stops_set_collection. case_decide.
  - intros [= <-]. by eapply collect_Ok_elem_of.
  - apply Hfr.
Qed.
End Directions.

(** *** Stop elements, routes and the constructor *)

Section Routes.
Context {F : Type} (float : string → option F).
Implicit Types (fr : frame (F:=F)) (r : BusRoute (F:=F)).
Implicit Types (bs : BusStop (F:=F)) (h : heading) (e d : Element).

Lemma py_float_Ok x f : py_float float x = Ok f ↔ x ≫= float = Some f.
Proof.
  unfold py_float. destruct x as [s|]; simpl; [|done].
  destruct (float s); split; congruence.
Qed.

Lemma py_float_Raise x err : py_float float x = Raise err → float_error err.
Proof.
  unfold py_float, float_error. destruct x as [s|]; [destruct (float s)|].
  - done.
  - intros [= <-]. left. by eexists.
  - intros [= <-]. by right.
Qed.

Lemma stop_body_Ok e fr fr' :
  stop_body float e fr = Ok fr'
  ↔ ∃ bs, built_from float (name (self fr)) e bs
          ∧ fr' = {| self := set_bus_stops (bus_stops (self fr) ++ [bs]) (self fr);
                     stop := Some e |}.
Proof.
  unfold stop_body, built_from, stop_of_element. split.
  - intros H. inv_bind H. apply py_float_Ok in H0, H1.
    rewrite H0, H1. simpl. eexists. by split.
  - intros (bs & Hbs & ->).
    destruct (get "lat" e ≫= float) as [lat|] eqn:Hlat; [|done].
    destruct (get "lon" e ≫= float) as [lon|] eqn:Hlon; [|done].
    apply py_float_Ok in Hlat, Hlon. rewrite Hlat, Hlon. simpl in *.
    by injection Hbs as <-.
Qed.

Lemma stop_body_Raise e fr err :
  stop_body float e fr = Raise err →
  float_error err ∧ ∀ nm, stop_of_element float nm e = None.
Proof.
  unfold stop_body, stop_of_element. intros H.
  apply bind_Raise in H as [H|(lat & Hlat & H)].
  - split; [by eapply py_float_Raise|]. intros nm.
    destruct (get "lat" e ≫= float) as [lat|] eqn:Hlat; [|done].
    apply py_float_Ok in Hlat. congruence.
  - apply bind_Raise in H as [H|(lon & _ & H)]; [|done].
    split; [by eapply py_float_Raise|]. intros nm.
    apply py_float_Ok in Hlat as ->. simpl.
    destruct (get "lon" e ≫= float) as [lon|] eqn:Hlon; [|done].
    apply py_float_Ok in Hlon. congruence.
Qed.

(** The loop over the stop elements of a route appends the stops built
    from them, in their order. *)
Lemma stops_loop_Ok stops fr fr' :
  for_each stops (stop_body float) fr = Ok fr' →
  stop_bound fr →
  (∃ new, Forall2 (built_from float (name (self fr))) stops new
          ∧ self fr' = set_bus_stops (bus_stops (self fr) ++ new) (self fr))
  ∧ stop_bound fr'.
Proof.
  revert fr. induction stops as [|e stops IH]; intros fr Hrun Hfr; simpl in Hrun.
  - injection Hrun as <-. split; [|done]. exists []. by rewrite set_bus_stops_id.
  - apply bind_Ok in Hrun as (fr1 & (bs & Hbs & ->)%stop_body_Ok & Hrun).
    apply IH in Hrun as ((new & Hnew & Hself) & Hfr'); [|done]. simpl in *.
    split; [|done]. exists (bs :: new). split.
    + by constructor.
    + by rewrite Hself, <-app_assoc.
Qed.

Lemma route_body_Ok route_el fr fr' :
  route_body float route_el fr = Ok fr' →
  stop_bound fr → collections_in_full fr →
  name (self fr') = name (self fr) ∧ number (self fr') = number (self fr)
  ∧ (∃ new, Forall2 (built_from float (name (self fr)))
              (findall "stop" route_el) new
            ∧ bus_stops (self fr') = bus_stops (self fr) ++ new)
  ∧ (∀ d, d ∈ findall "direction" route_el → is_Some (heading_code d))
  ∧ (∀ h, is_Some (collection_of h (self fr'))
          ↔ is_Some (collection_of h (self fr))
            ∨ ∃ d, d ∈ findall "direction" route_el ∧ has_heading h d)
  ∧ stop_bound fr' ∧ collections_in_full fr'.
Proof.
  unfold route_body. intros Hrun Hbound Hfull.
  apply bind_Ok in Hrun as (fr1 & Hstops & Hrun).
  apply stops_loop_Ok in Hstops as ((new & Hnew & Hself) & Hbound1); [|done].
  assert (collections_in_full fr1) as Hfull1.
  { intros h l bs. rewrite Hself. simpl. intros Hl Hbs.
    apply elem_of_app. left. apply (Hfull h l); [|done]. by destruct h. }
  assert (stop_bound fr' ∧ collections_in_full fr') as [??].
  { revert Hrun.
    apply (for_each_invariant (λ t, stop_bound t ∧ collections_in_full t));
      [|done].
    intros d t t' _ [??] Ht.
    split; [by eapply direction_body_stop_bound|by eapply direction_body_in_full]. }
  apply directions_loop_Ok in Hrun as (Hname & Hnumber & Hstops & _ & Hcodes & Hsome).
  rewrite Hname, Hnumber, Hstops, Hself. simpl. split_and!; try done.
  - by exists new.
  - intros h. rewrite Hsome, Hself. by destruct h.
Qed.

Lemma routes_loop_Ok routes fr fr' :
  for_each routes (route_body float) fr = Ok fr' →
  stop_bound fr → collections_in_full fr →
  name (self fr') = name (self fr) ∧ number (self fr') = number (self fr)
  ∧ (∃ new, Forall2 (built_from float (name (self fr)))
              (route_el ← routes; findall "stop" route_el) new
            ∧ bus_stops (self fr') = bus_stops (self fr) ++ new)
  ∧ (∀ d, d ∈ (route_el ← routes; findall "direction" route_el) →
          is_Some (heading_code d))
  ∧ (∀ h, is_Some (collection_of h (self fr'))
          ↔ is_Some (collection_of h (self fr))
            ∨ ∃ d, d ∈ (route_el ← routes; findall "direction" route_el)
                   ∧ has_heading h d)
  ∧ collections_in_full fr'.
Proof.
  revert fr. induction routes as [|route_el routes IH];
    intros fr Hrun Hbound Hfull; simpl in Hrun.
  - injection Hrun as <-. split_and!; try done.
    + exists []. by rewrite app_nil_r.
    + by intros d ?%elem_of_nil.
    + intros h. split; [by left|]. by intros [?|(d & ?%elem_of_nil & _)].
  - apply bind_Ok in Hrun as (fr1 & H1 & Hrun).
    apply route_body_Ok in H1
      as (Hname1 & Hnumber1 & (new1 & Hnew1 & Hstops1) & Hcodes1 & Hsome1
          & Hbound1 & Hfull1); [|done..].
    apply IH in Hrun
      as (Hname & Hnumber & (new & Hnew & Hstops) & Hcodes & Hsome & Hfull');
      [|done..].
    rewrite Hname, Hnumber, Hname1, Hnumber1. split_and!; try done.
    + exists (new1 ++ new). rewrite Hname1 in Hnew. split.
      * simpl. by apply Forall2_app.
      * by rewrite Hstops, Hstops1, <-app_assoc.
    + intros d [?|?]%elem_of_app; auto.
    + intros h. rewrite Hsome, Hsome1. split.
      * intros [[?|(d & ? & ?)]|(d & ? & ?)]; [by left|right; exists d..];
          (split; [|done]); apply elem_of_app; auto.
      * intros [?|(d & [?|?]%elem_of_app & ?)]; eauto.
Qed.

(** What a route that has been built says of its document. *)
Lemma BusRoute_of_doc_Ok n _doc r :
  BusRoute_of_doc float n _doc = Ok r →
  (∃ first, children _doc !! 0%nat = Some first
            ∧ attrib first !! "title" = Some (name r))
  ∧ number r = n
  ∧ Forall2 (built_from float (name r)) (feed_stops _doc) (bus_stops r)
  ∧ (∀ d, d ∈ feed_directions _doc → is_Some (heading_code d))
  ∧ (∀ h, is_Some (collection_of h r)
          ↔ ∃ d, d ∈ feed_directions _doc ∧ has_heading h d)
  ∧ ∀ h l bs, collection_of h r = Some l → bs ∈ l → bs ∈ bus_stops r.
Proof.
  unfold BusRoute_of_doc. intros Hrun.
  apply bind_Ok in Hrun as (nm & Hnm%read_name_Ok & Hrun).
  apply bind_Ok in Hrun as (fr & Hloop & [= <-]).
  apply routes_loop_Ok in Hloop
    as (-> & -> & (new & Hnew & Hstops) & Hcodes & Hsome & Hfull).
  - simpl in *. subst new. split_and!; try done.
    intros h. rewrite Hsome. split; [|by right].
    intros [[l Hl]|?]; [by destruct h|done].
  - done.
  - intros h l bs. by destruct h.
Qed.

(** *** Failures *)

Lemma route_body_Raise route_el fr err :
  stop_bound fr → route_body float route_el fr = Raise err →
  (∃ e, e ∈ findall "stop" route_el ∧ float_error err
        ∧ ∀ nm, stop_of_element float nm e = None)
  ∨ (∃ d, d ∈ findall "direction" route_el ∧ heading_code d = None
          ∧ title_error err).
Proof.
  unfold route_body. intros Hfr [Hrun|(fr1 & Hstops & Hrun)]%bind_Raise.
  - left. apply for_each_Raise in Hrun as (e & t & He & Hraise).
    exists e. split; [done|]. by eapply stop_body_Raise.
  - right. apply stops_loop_Ok in Hstops as [_ Hfr1]; [|done].
    apply (for_each_Raise_inv stop_bound) in Hrun
      as (d & t & Hd & Ht & Hraise); [| |done].
    + exists d. split; [done|]. by eapply direction_body_Raise_bound.
    + intros d t t' _. apply direction_body_stop_bound.
Qed.

Lemma route_body_stop_bound route_el fr fr' :
  stop_bound fr → route_body float route_el fr = Ok fr' → stop_bound fr'.
Proof.
  unfold route_body. intros Hfr (fr1 & H1 & H2)%bind_Ok.
  apply stops_loop_Ok in H1 as [_ Hfr1]; [|done]. revert Hfr1 H2.
  apply for_each_invariant. intros d t t' _. apply direction_body_stop_bound.
Qed.

(** Why the constructor fails: on the title of the route, on the
    coordinates of a stop element, or on the title of a direction
    element. *)
Lemma BusRoute_of_doc_Raise n _doc err :
  BusRoute_of_doc float n _doc = Raise err →
  read_name _doc = Raise err
  ∨ (∃ e, e ∈ feed_stops _doc ∧ float_error err
          ∧ ∀ nm, stop_of_element float nm e = None)
  ∨ (∃ d, d ∈ feed_directions _doc ∧ heading_code d = None ∧ title_error err).
Proof.
  unfold BusRoute_of_doc. intros [Hrun|(nm & Hnm & Hrun)]%bind_Raise; [by left|].
  right. apply bind_Raise in Hrun as [Hrun|(fr & _ & [=])].
  apply (for_each_Raise_inv stop_bound) in Hrun
    as (route_el & t & Hroute & Ht & Hraise); [| |done].
  - apply route_body_Raise in Hraise
      as [(e & He & Herr & Hnone)|(d & Hd & Hcode & Herr)]; [| |done].
    + left. exists e. split_and!; [|done..].
      apply list_elem_of_bind. by exists route_el.
    + right. exists d. split_and!; [|done..].
      apply list_elem_of_bind. by exists route_el.
  - intros route_el t t' _. apply route_body_stop_bound.
Qed.

(** The constructor never raises the error of the program's own. *)
Lemma BusRoute_of_doc_not_NoRouteError n _doc err :
  BusRoute_of_doc float n _doc = Raise err → ¬ is_NoRouteError err.
Proof.
  intros [Hname|[(e & _ & Herr & _)|(d & _ & _ & Herr)]]%BusRoute_of_doc_Raise
    [msg ->].
  - by apply read_name_Raise in Hname as [?|?].
  - by destruct Herr as [[? ?]|?].
  - by destruct Herr.
Qed.

(** Without a title on the first child of the root, the constructor
    raises [NameError], whatever the rest of the document. *)
Lemma BusRoute_of_doc_no_title n _doc first :
  children _doc !! 0%nat = Some first → attrib first !! "title" = None →
  BusRoute_of_doc float n _doc
  = Raise (NameError "name 'route_name' is not defined").
Proof.
  intros Hfirst Htitle. unfold BusRoute_of_doc.
  by rewrite (read_name_no_title _ first).
Qed.

(** The constructor returns a route whenever the first child of the root
    has a title, the coordinates of every stop element parse and every
    direction element has a title that is not empty. *)
Lemma BusRoute_of_doc_total n _doc first nm :
  children _doc !! 0%nat = Some first → attrib first !! "title" = Some nm →
  (∀ e, e ∈ feed_stops _doc → is_Some (stop_of_element float nm e)) →
  (∀ d, d ∈ feed_directions _doc → is_Some (heading_code d)) →
  is_Ok (BusRoute_of_doc float n _doc).
Proof.
  intros Hfirst Htitle Hstops Hdirs.
  destruct (BusRoute_of_doc float n _doc) as [r|err] eqn:Hrun; [by exists r|].
  apply BusRoute_of_doc_Raise in Hrun
    as [Hname|[(e & He & _ & Hnone)|(d & Hd & Hcode & _)]].
  - assert (read_name _doc = Ok nm) as Hok
      by (apply read_name_Ok; by exists first).
    congruence.
  - destruct (Hstops e He) as [bs Hbs]. by rewrite Hnone in Hbs.
  - destruct (Hdirs d Hd) as [c Hc]. congruence.
Qed.
End Routes.

(** ** The constructor and its specification *)

(** C1: on the feed of route 23, "23-Dawes", with the stops tagged 1001 and
    1002 and a north direction that refers to 1001, the constructor returns
    number 23, name "23-Dawes", both stops in the full collection, no south,
    east or west collection, and a north collection that holds the stop
    tagged 1002: the stop compared with is the one read last, not the one
    the direction refers to. *)
Theorem dawes_north_stops :
  BusRoute_of_doc literal_float 23 dawes_feed = Ok dawes_route
  ∧ north_stops dawes_route = Some [dawes_1002]
  ∧ _tag dawes_1002 = Some "1002"
  ∧ (λ d, get "tag" <$> findall "stop" d) <$> feed_directions dawes_feed
    = [[Some "1001"]].
Proof. by vm_compute. Qed.

(** A direction element whose title starts with the character [c] assigns
    the collection of [heading_of c] and leaves the other three as they
    were. *)
Lemma direction_populates_heading {F} (fr fr' : frame (F:=F)) d c rest :
  get "title" d = Some (String c rest) →
  direction_body d fr = Ok fr' →
  (∃ l, collect fr d = Ok l ∧ collection_of (heading_of c) (self fr') = Some l)
  ∧ (∀ h, h ≠ heading_of c →
          collection_of h (self fr') = collection_of h (self fr))
  ∧ heading_of "N" = North ∧ heading_of "S" = South ∧ heading_of "E" = East
  ∧ heading_of "W" = West ∧ heading_of "U" = West
  ∧ (c ≠ "N"%char → c ≠ "S"%char → c ≠ "E"%char → heading_of c = West).
Proof.
  intros Htitle (c' & l & Hc & Hl & ->)%direction_body_Ok.
  assert (heading_code d = Some c) as Hc' by (apply heading_code_Some; eauto).
  assert (c' = c) as -> by congruence. simpl. split_and!; try done.
  - exists l. split; [done|]. rewrite collection_of_set. by rewrite decide_True.
  - intros h Hh. rewrite collection_of_set. by rewrite decide_False.
  - intros HN HS HE. unfold heading_of. by rewrite !decide_False.
Qed.

Lemma direction_populates_heading_witness :
  get "title" unknown_direction = Some "Unknown"
  ∧ ∃ fr', direction_body unknown_direction compass_frame = Ok fr'
           ∧ is_Some (collection_of West (self fr'))
           ∧ collection_of North (self fr') = None.
Proof.
  split; [reflexivity|]. eexists. split; [reflexivity|].
  pose proof (direction_populates_heading compass_frame _ unknown_direction
                "U" "nknown" eq_refl eq_refl) as ((l & _ & Hl) & Hother & _).
  split.
  - exists l. exact Hl.
  - exact (Hother North ltac:(discriminate)).
Defined.

(** C2: a direction element whose title starts with [c] assigns the
    collection of [heading_of c] (north for N, south for S, east for E,
    west for every other character, such as the U of "Unknown") and leaves
    the other three as they were; what it puts there is, once for each of
    its stop references, the stops of the route whose tag is the tag of the
    stop element read last.  In the feed of route 5 the direction titled
    "Unknown" refers to the stop tagged 7, and the west collection that it
    assigns holds the stop tagged 8: the stops of the direction itself are
    not the ones that are routed. *)
Theorem direction_heading_and_stops :
  (∀ F (fr : frame (F:=F)) d c rest last_el,
     get "title" d = Some (String c rest) → stop fr = Some last_el →
     ∃ fr', direction_body d fr = Ok fr'
       ∧ collection_of (heading_of c) (self fr')
         = Some (mjoin (replicate (length (findall "stop" d))
                          (filter (λ b, get "tag" last_el = _tag b)
                             (bus_stops (self fr)))))
       ∧ (∀ h, h ≠ heading_of c →
               collection_of h (self fr') = collection_of h (self fr))
       ∧ bus_stops (self fr') = bus_stops (self fr))
  ∧ (heading_of "N" = North ∧ heading_of "S" = South ∧ heading_of "E" = East
     ∧ heading_of "W" = West ∧ heading_of "U" = West
     ∧ ∀ c, c ≠ "N"%char → c ≠ "S"%char → c ≠ "E"%char → heading_of c = West)
  ∧ BusRoute_of_doc literal_float 5 compass_feed = Ok compass_route
  ∧ unknown_direction ∈ feed_directions compass_feed
  ∧ get "tag" <$> findall "stop" unknown_direction = [Some "7"]
  ∧ west_stops compass_route = Some [compass_8]
  ∧ _tag compass_8 = Some "8"
  ∧ compass_7 ∈ bus_stops compass_route ∧ _tag compass_7 = Some "7".
Proof.
  split_and!; try (by vm_compute).
  - intros F fr d c rest last_el Htitle Hstop.
    assert (heading_code d = Some c) as Hc by (apply heading_code_Some; eauto).
    eexists. split.
    { apply direction_body_Ok. exists c. eexists. split; [done|].
      split; [by apply (collect_bound fr d last_el)|done]. }
    simpl. split_and!.
    + rewrite collection_of_set. by rewrite decide_True.
    + intros h Hh. rewrite collection_of_set. by rewrite decide_False.
    + apply bus_stops_set_collection.
  - intros c HN HS HE. unfold heading_of. by rewrite !decide_False.
  - assert (∃ d1 d3, feed_directions compass_feed = [d1; unknown_direction; d3])
      as (d1 & d3 & ->) by (eexists _, _; reflexivity).
    right. left.
  - left.
Qed.

Lemma direction_heading_and_stops_witness :
  ∃ fr', direction_body unknown_direction compass_frame = Ok fr'
         ∧ collection_of West (self fr') = Some [compass_8]
         ∧ collection_of South (self fr') = Some [compass_8; compass_8].
Proof.
  destruct (proj1 direction_heading_and_stops string compass_frame
              unknown_direction "U"%char "nknown"
              (elem "stop" [("tag", "8"); ("title", "B"); ("lat", "43.2");
                            ("lon", "-79.2")] [])
              eq_refl eq_refl) as (fr' & Hrun & Hwest & Hother & _).
  exists fr'. split; [exact Hrun|]. split.
  - exact Hwest.
  - exact (Hother South ltac:(discriminate)).
Defined.

(** C3: for the answer of the feed to a number that is no route (the first
    child of the root has no title), the constructor raises [NameError]:
    the handler reads [route_name], which does not exist, before it can
    raise [NoRouteError]. *)
Theorem error_feed_raises_NameError :
  BusRoute_init literal_float (serve (route_url 999) error_feed) 999
  = Raise (NameError "name 'route_name' is not defined").
Proof. by vm_compute. Qed.

(** C4: the full collection of a route holds one stop for each stop element
    of the feed, in the order of the feed, built from the route name and
    the element's [stopId], [title], [lat] and [lon] as floating-point
    numbers, and [tag]. *)
Theorem bus_stops_of_feed {F} (float : string → option F) n _doc r :
  BusRoute_of_doc float n _doc = Ok r →
  length (bus_stops r) = length (feed_stops _doc)
  ∧ ∀ i e, feed_stops _doc !! i = Some e →
      ∃ lat lon,
        get "lat" e ≫= float = Some lat ∧ get "lon" e ≫= float = Some lon
        ∧ bus_stops r !! i
          = Some {| _tag := get "tag" e; _id := get "stopId" e;
                    intersection := get "title" e; coordinates := (lat, lon);
                    route := name r |}.
Proof.
  intros (_ & _ & Hstops & _)%BusRoute_of_doc_Ok. split.
  - symmetry. by eapply Forall2_length.
  - intros i e He.
    destruct (Forall2_lookup_l _ _ _ _ _ Hstops He) as (bs & Hbs & Hbuilt).
    unfold built_from, stop_of_element in Hbuilt.
    destruct (get "lat" e ≫= float) as [lat|]; [|done].
    destruct (get "lon" e ≫= float) as [lon|]; [|done].
    exists lat, lon. simpl in Hbuilt. injection Hbuilt as <-. by rewrite Hbs.
Qed.

Lemma bus_stops_of_feed_witness :
  BusRoute_of_doc literal_float 23 dawes_feed = Ok dawes_route
  ∧ length (bus_stops dawes_route) = length (feed_stops dawes_feed).
Proof.
  assert (BusRoute_of_doc literal_float 23 dawes_feed = Ok dawes_route) as Hrun
    by (vm_compute; reflexivity).
  split; [exact Hrun|].
  exact (proj1 (bus_stops_of_feed literal_float 23 dawes_feed dawes_route Hrun)).
Defined.

(** C5: every stop in the north, south, east or west collection of a route
    is in its full collection. *)
Theorem directional_stops_in_full {F} (float : string → option F) n _doc r h l bs :
  BusRoute_of_doc float n _doc = Ok r →
  collection_of h r = Some l → bs ∈ l → bs ∈ bus_stops r.
Proof.
  intros (_ & _ & _ & _ & _ & Hfull)%BusRoute_of_doc_Ok. apply Hfull.
Qed.

Lemma directional_stops_in_full_witness :
  collection_of North dawes_route = Some [dawes_1002]
  ∧ dawes_1002 ∈ bus_stops dawes_route.
Proof.
  split; [reflexivity|].
  apply (directional_stops_in_full literal_float 23 dawes_feed dawes_route
           North [dawes_1002]).
  - vm_compute; reflexivity.
  - reflexivity.
  - apply list_elem_of_here.
Defined.

(** C9: a route has the attribute of a heading exactly when the feed has a
    direction element of that heading; without one the attribute does not
    exist (it is neither [None] nor an empty list) and reading it raises
    [AttributeError]. *)
Theorem directional_attribute_iff {F} (float : string → option F) n _doc r h :
  BusRoute_of_doc float n _doc = Ok r →
  (is_Some (collection_of h r)
   ↔ ∃ d, d ∈ feed_directions _doc ∧ has_heading h d)
  ∧ ((¬ ∃ d, d ∈ feed_directions _doc ∧ has_heading h d) →
     collection_of h r = None
     ∧ getattr_stops (collection_of h) (attribute_of h) r
       = Raise (AttributeError
                  ("'BusRoute' object has no attribute '" +:+ attribute_of h +:+ "'")))
  ∧ ((∃ d, d ∈ feed_directions _doc ∧ has_heading h d) →
     ∃ l, getattr_stops (collection_of h) (attribute_of h) r = Ok l).
Proof.
  intros (_ & _ & _ & _ & Hsome & _)%BusRoute_of_doc_Ok. split_and!.
  - apply Hsome.
  - intros Hnone. rewrite <-Hsome in Hnone. unfold getattr_stops.
    destruct (collection_of h r) as [l|]; [|done]. destruct Hnone. by exists l.
  - intros [l Hl]%Hsome. exists l. unfold getattr_stops. by rewrite Hl.
Qed.

Lemma directional_attribute_iff_witness :
  (is_Some (collection_of South dawes_route)
   ↔ ∃ d, d ∈ feed_directions dawes_feed ∧ has_heading South d)
  ∧ getattr_stops (collection_of North) "north_stops" dawes_route
    = Ok [dawes_1002].
Proof.
  split.
  - apply (directional_attribute_iff literal_float 23 dawes_feed dawes_route South).
    vm_compute; reflexivity.
  - reflexivity.
Defined.

(** C10: [title[0]] fails on a direction element without a title and on
    one with an empty title.  A feed with such a direction element yields
    no route but an error other than [NoRouteError], the error of
    [title[0]] when the route has a title and the coordinates of its stop
    elements parse.  When every direction element has a title that is not
    empty, [title[0]] succeeds on each and the constructor never fails
    with its error. *)
Theorem direction_title_partial {F} (float : string → option F) n _doc :
  first_char None = Raise (TypeError "'NoneType' object is not subscriptable")
  ∧ first_char (Some "") = Raise (IndexError "string index out of range")
  ∧ ((∃ d, d ∈ feed_directions _doc
           ∧ (get "title" d = None ∨ get "title" d = Some "")) →
     (∃ err, BusRoute_of_doc float n _doc = Raise err ∧ ¬ is_NoRouteError err)
     ∧ (is_Ok (read_name _doc) →
        (∀ e, e ∈ feed_stops _doc → ∃ nm, is_Some (stop_of_element float nm e)) →
        ∃ err, BusRoute_of_doc float n _doc = Raise err ∧ title_error err))
  ∧ ((∀ d, d ∈ feed_directions _doc → ∃ c rest, get "title" d = Some (String c rest)) →
     (∀ d, d ∈ feed_directions _doc → is_Ok (first_char (get "title" d)))
     ∧ ∀ err, BusRoute_of_doc float n _doc = Raise err → ¬ title_error err).
Proof.
  split_and!; [done|done| |].
  - intros (d & Hd & Htitle%heading_code_None).
    destruct (BusRoute_of_doc float n _doc) as [r|err] eqn:Hrun.
    { apply BusRoute_of_doc_Ok in Hrun as (_ & _ & _ & Hcodes & _).
      destruct (Hcodes d Hd) as [c Hc]. congruence. }
    split.
    + exists err. split; [done|]. by eapply BusRoute_of_doc_not_NoRouteError.
    + intros [nm Hnm] Hstops. exists err. split; [done|].
      apply BusRoute_of_doc_Raise in Hrun
        as [Hname|[(e & He & _ & Hnone)|(d' & _ & _ & Herr)]]; [| |done].
      * congruence.
      * destruct (Hstops e He) as (nm' & bs & Hbs). by rewrite Hnone in Hbs.
  - intros Htitles. split.
    + intros d (c & rest & Hd)%Htitles. exists c. apply first_char_Ok. by exists rest.
    + intros err [Hname|[(e & _ & Herr & _)|(d & Hd & Hnone & _)]]%BusRoute_of_doc_Raise
        Hterr.
      * by destruct Hterr as [->| ->], (read_name_Raise _ _ Hname).
      * by destruct Hterr as [->| ->], Herr as [[? ?]|?].
      * destruct (Htitles d Hd) as (c & rest & Hc).
        apply heading_code_None in Hnone as [?|?]; congruence.
Qed.

Lemma direction_title_partial_witness :
  (∃ d, d ∈ feed_directions untitled_direction_feed
        ∧ (get "title" d = None ∨ get "title" d = Some ""))
  ∧ ∃ err, BusRoute_of_doc literal_float 5 untitled_direction_feed = Raise err
           ∧ title_error err.
Proof.
  assert (∃ d, d ∈ feed_directions untitled_direction_feed
               ∧ (get "title" d = None ∨ get "title" d = Some "")) as Hbad.
  { eexists. split; [apply list_elem_of_here|]. left. reflexivity. }
  split; [exact Hbad|].
  apply (direction_title_partial literal_float 5 untitled_direction_feed); [exact Hbad| |].
  - eexists. reflexivity.
  - intros e He. exists "". apply list_elem_of_singleton in He as ->.
    eexists. reflexivity.
Defined.

(** ** More on the constructor *)

Lemma for_each_app {A S} (l1 l2 : list A) (body : A → S → result S) s :
  for_each (l1 ++ l2) body s = for_each l1 body s ≫= for_each l2 body.
Proof.
  revert s. induction l1 as [|x l1 IH]; intros s; simpl; [done|].
  destruct (body x s) as [s'|e]; simpl; [apply IH|done].
Qed.

Section Overwriting.
Context {F : Type}.
Implicit Types (fr : frame (F:=F)) (h : heading) (d : Element).


(** Direction elements of other headings leave a collection alone. *)
Lemma directions_loop_other ds fr fr' h :
  for_each ds direction_body fr = Ok fr' →
  (∀ d, d ∈ ds → ¬ has_heading h d) →
  collection_of h (self fr') = collection_of h (self fr).
Proof.
  revert fr. induction ds as [|d ds IH]; intros fr Hrun Hother; simpl in Hrun.
  - by injection Hrun as <-.
  - apply bind_Ok in Hrun as (fr1 & (c & l & Hc & Hl & ->)%direction_body_Ok & Hrun).
    rewrite (IH _ Hrun) by (intros d' Hd'; apply Hother; by right). simpl.
    rewrite collection_of_set, decide_False; [done|].
    intros ->. apply (Hother d); [by left|]. by exists c.
Qed.


End Overwriting.


Section Constructor.
Context {F : Type} (float : string → option F).
Implicit Types (fr : frame (F:=F)) (r : BusRoute (F:=F)).
Implicit Types (h : heading) (e d : Element).

(** After the loop over the stop elements, [stop] is the last of them. *)
Lemma stops_loop_last stops fr fr' :
  for_each stops (stop_body float) fr = Ok fr' →
  stop fr' = match last stops with Some e => Some e | None => stop fr end.
Proof.
  revert fr. induction stops as [|e stops IH]; intros fr Hrun; simpl in Hrun.
  - by injection Hrun as <-.
  - apply bind_Ok in Hrun as (fr1 & (bs & _ & ->)%stop_body_Ok & Hrun).
    rewrite (IH _ Hrun), last_cons. simpl. by destruct (last stops).
Qed.

(** X2: in a feed with one route element that has stop elements, the
    attribute of a heading holds, once for each stop reference of the last
    direction element of that heading, the stops of the route whose tag is
    the tag of the last stop element; the tags of the references play no
    part. *)
Theorem single_route_collection n _doc r route_el last_el ds1 d ds2 h :
  BusRoute_of_doc float n _doc = Ok r →
  findall "route" _doc = [route_el] →
  last (findall "stop" route_el) = Some last_el →
  findall "direction" route_el = ds1 ++ d :: ds2 →
  has_heading h d →
  (∀ d', d' ∈ ds2 → ¬ has_heading h d') →
  collection_of h r
  = Some (mjoin (replicate (length (findall "stop" d))
                   (filter (λ b, get "tag" last_el = _tag b) (bus_stops r)))).
Proof.
  unfold BusRoute_of_doc. intros Hrun Hroutes Hlast Hdirs Hd Hother.
  apply bind_Ok in Hrun as (nm & _ & Hrun).
  apply bind_Ok in Hrun as (fr' & Hloop & [= <-]).
  rewrite Hroutes in Hloop. simpl in Hloop.
  apply bind_Ok in Hloop as (fr2 & Hroute & [= <-]). unfold route_body in Hroute.
  apply bind_Ok in Hroute as (fr1 & Hstops & Hrun).
  apply stops_loop_last in Hstops as Hstop. rewrite Hlast in Hstop.
  rewrite Hdirs, for_each_app in Hrun.
  apply bind_Ok in Hrun as (fr3 & H1 & Hrun). simpl in Hrun.
  apply bind_Ok in Hrun as (fr4 & (c' & l & Hc' & Hl & ->)%direction_body_Ok & Hrun).
  destruct Hd as (c & Hc & <-). assert (c' = c) as -> by congruence.
  apply directions_loop_Ok in H1 as (_ & _ & Hbs3 & Hstop3 & _).
  rewrite (directions_loop_other _ _ _ _ Hrun Hother). simpl.
  rewrite collection_of_set, decide_True by done. f_equal.
  apply directions_loop_Ok in Hrun as (_ & _ & Hbs2 & _). simpl in Hbs2.
  rewrite bus_stops_set_collection in Hbs2. rewrite Hbs2.
  rewrite (collect_bound fr3 d last_el) in Hl by congruence. congruence.
Qed.

End Constructor.

Lemma single_route_collection_witness :
  collection_of North dawes_route
  = Some (mjoin (replicate 1
                   (filter (λ b, Some "1002" = _tag b) (bus_stops dawes_route)))).
Proof.
  apply (single_route_collection literal_float 23 dawes_feed dawes_route
           (elem "route" [("tag", "23"); ("title", "23-Dawes")]
              [ elem "stop" [("tag", "1001"); ("title", "Main Street Station");
                             ("lat", "43.6890199"); ("lon", "-79.3016799");
                             ("stopId", "14211")] [];
                elem "stop" [("tag", "1002"); ("title", "Dawes Rd At Chapman Ave");
                             ("lat", "43.6924599"); ("lon", "-79.2968");
                             ("stopId", "3407")] [];
                elem "direction" [("tag", "23_0_23"); ("title", "North - 23 Dawes");
                                  ("name", "North")]
                  [ elem "stop" [("tag", "1001")] [] ] ])
           (elem "stop" [("tag", "1002"); ("title", "Dawes Rd At Chapman Ave");
                         ("lat", "43.6924599"); ("lon", "-79.2968");
                         ("stopId", "3407")] [])
           []
           (elem "direction" [("tag", "23_0_23"); ("title", "North - 23 Dawes");
                              ("name", "North")]
              [ elem "stop" [("tag", "1001")] [] ])
           [] North).
  - vm_compute; reflexivity.
  - reflexivity.
  - reflexivity.
  - reflexivity.
  - exists "N"%char. split; reflexivity.
  - intros d' Hd'. by apply elem_of_nil in Hd'.
Defined.

Section Outcomes.
Context {F : Type} (float : string → option F).
Implicit Types (r : BusRoute (F:=F)) (h : heading) (e d : Element).

Lemma stop_of_element_Some nm e :
  is_Some (stop_of_element float nm e)
  ↔ is_Some (get "lat" e ≫= float) ∧ is_Some (get "lon" e ≫= float).
Proof.
  unfold stop_of_element.
  destruct (get "lat" e ≫= float) as [lat|], (get "lon" e ≫= float) as [lon|];
    simpl; split; try (by intros [? [=]]); try (by intros [[? [=]] ?]);
    try (by intros [? [? [=]]]).
Qed.

Lemma read_name_Raise_cases _doc err :
  read_name _doc = Raise err →
  (err = IndexError "child index out of range" ∧ children _doc = [])
  ∨ (err = NameError "name 'route_name' is not defined"
     ∧ ∃ first, children _doc !! 0%nat = Some first
                ∧ attrib first !! "title" = None).
Proof.
  unfold read_name, getitem, attrib_getitem, no_title_handler.
  destruct (children _doc) as [|first rest] eqn:Hchildren; simpl.
  - intros [= <-]. by left.
  - destruct (attrib first !! "title") as [t|] eqn:Ht; simpl; [done|].
    intros [= <-]. right. split; [done|]. by exists first.
Qed.

(** X3: the constructor returns a route exactly when the root has a first
    child with a title, the [lat] and [lon] of every stop element are
    there and parse, and every direction element has a title that is not
    empty. *)
Theorem constructor_succeeds_iff n _doc :
  is_Ok (BusRoute_of_doc float n _doc)
  ↔ (∃ first nm, children _doc !! 0%nat = Some first
                 ∧ attrib first !! "title" = Some nm)
    ∧ (∀ e, e ∈ feed_stops _doc →
            is_Some (get "lat" e ≫= float) ∧ is_Some (get "lon" e ≫= float))
    ∧ (∀ d, d ∈ feed_directions _doc →
            ∃ c rest, get "title" d = Some (String c rest)).
Proof.
  split.
  - intros [r (Hname & _ & Hstops & Hcodes & _)%BusRoute_of_doc_Ok]. split_and!.
    + destruct Hname as (first & ? & ?). by exists first, (name r).
    + intros e (i & Hi)%list_elem_of_lookup.
      destruct (Forall2_lookup_l _ _ _ _ _ Hstops Hi) as (bs & _ & Hbs).
      apply (stop_of_element_Some (name r)). by exists bs.
    + intros d [c Hc%heading_code_Some]%Hcodes. by exists c.
  - intros ((first & nm & Hfirst & Hnm) & Hstops & Hdirs).
    apply (BusRoute_of_doc_total float n _doc first nm); try done.
    + intros e He. apply stop_of_element_Some. by apply Hstops.
    + intros d (c & rest & Hd)%Hdirs. exists c. apply heading_code_Some. by exists rest.
Qed.

(** X4: when the constructor fails, it is with [IndexError] on a root
    without children, with [NameError] on a first child without title,
    with the error of [float] on a stop element whose [lat] or [lon] is
    missing or does not parse, or with the error of [title[0]] on a
    direction element without title or with an empty one; reading the
    local [stop] in the matching loops never fails, not even for a route
    with direction elements and no stop element. *)
Theorem constructor_failures n _doc err :
  BusRoute_of_doc float n _doc = Raise err →
  (err = IndexError "child index out of range" ∧ children _doc = [])
  ∨ (err = NameError "name 'route_name' is not defined"
     ∧ ∃ first, children _doc !! 0%nat = Some first
                ∧ attrib first !! "title" = None)
  ∨ (float_error err
     ∧ ∃ e, e ∈ feed_stops _doc
            ∧ (get "lat" e ≫= float = None ∨ get "lon" e ≫= float = None))
  ∨ (title_error err
     ∧ ∃ d, d ∈ feed_directions _doc
            ∧ (get "title" d = None ∨ get "title" d = Some "")).
Proof.
  intros [Hname|[(e & He & Herr & Hnone)|(d & Hd & Hcode & Herr)]]%BusRoute_of_doc_Raise.
  - apply read_name_Raise_cases in Hname as [?|?]; auto.
  - right. right. left. split; [done|]. exists e. split; [done|].
    specialize (Hnone ""). unfold stop_of_element in Hnone.
    destruct (get "lat" e ≫= float); [|by left].
    destruct (get "lon" e ≫= float); [done|by right].
  - right. right. right. split; [done|]. exists d. split; [done|].
    by apply heading_code_None.
Qed.

(** X5: a route that has been built carries the number it was asked for
    and, as its name, the title of the first child of the root, whatever
    the tag of that child; each of its stops names that route. *)
Theorem route_number_and_name n _doc r :
  BusRoute_of_doc float n _doc = Ok r →
  number r = n
  ∧ (∃ first, children _doc !! 0%nat = Some first
              ∧ attrib first !! "title" = Some (name r))
  ∧ ∀ bs, bs ∈ bus_stops r → route bs = name r.
Proof.
  intros (Hname & Hnumber & Hstops & _)%BusRoute_of_doc_Ok. split_and!; try done.
  intros bs (i & Hi)%list_elem_of_lookup.
  destruct (Forall2_lookup_r _ _ _ _ _ Hstops Hi) as (e & _ & Hbs).
  unfold built_from, stop_of_element in Hbs.
  destruct (get "lat" e ≫= float); [|done].
  destruct (get "lon" e ≫= float); [|done]. simpl in Hbs. by injection Hbs as <-.
Qed.

End Outcomes.

Lemma constructor_failures_witness :
  BusRoute_of_doc literal_float 5 untitled_direction_feed
  = Raise (TypeError "'NoneType' object is not subscriptable")
  ∧ ∃ d, d ∈ feed_directions untitled_direction_feed
         ∧ (get "title" d = None ∨ get "title" d = Some "").
Proof.
  assert (BusRoute_of_doc literal_float 5 untitled_direction_feed
          = Raise (TypeError "'NoneType' object is not subscriptable")) as Hrun
    by (vm_compute; reflexivity).
  split; [exact Hrun|].
  destruct (constructor_failures literal_float 5 untitled_direction_feed _ Hrun)
    as [[[=] _]|[[[=] _]|[[[[? [=]]|[=]] _]|[_ Hd]]]].
  exact Hd.
Defined.

Lemma route_number_and_name_witness :
  number dawes_route = 23%Z
  ∧ (∃ first, children dawes_feed !! 0%nat = Some first
              ∧ attrib first !! "title" = Some (name dawes_route))
  ∧ ∀ bs, bs ∈ bus_stops dawes_route → route bs = name dawes_route.
Proof.
  apply (route_number_and_name literal_float 23 dawes_feed dawes_route).
  vm_compute; reflexivity.
Defined.

(** ** More on the distance lookup *)

Lemma getitem_Raise e i err :
  getitem e i = Raise err → err = IndexError "child index out of range".
Proof. unfold getitem. destruct (children e !! i); [done|]. by intros [= <-]. Qed.

Lemma row_text_Raise doc i err :
  row_text doc i = Raise err →
  (find "row" doc = None ∧ err = TypeError "'NoneType' object is not subscriptable")
  ∨ (is_Some (find "row" doc) ∧ err = IndexError "child index out of range").
Proof.
  unfold row_text. destruct (find "row" doc) as [row|]; simpl.
  - intros H. right. split; [by exists row|].
    apply bind_Raise in H as [H|(e0 & _ & H)]; [by eapply getitem_Raise|].
    apply bind_Raise in H as [H|(e1 & _ & H)]; [by eapply getitem_Raise|].
    apply bind_Raise in H as [H|(e2 & _ & H)]; [by eapply getitem_Raise|done].
  - intros [= <-]. by left.
Qed.

(** X7: on an answer without [row] (what the service sends when it refuses
    the request) the lookup raises the [TypeError] of indexing [None]; with
    a [row] that lacks one of the children on the two paths it raises
    [IndexError]; it fails in no other way. *)
Theorem GMapsRoute_failures doc :
  (find "row" doc = None →
   GMapsRoute_of_doc doc
   = Raise (TypeError "'NoneType' object is not subscriptable"))
  ∧ (∀ row, find "row" doc = Some row → children row = [] →
       GMapsRoute_of_doc doc = Raise (IndexError "child index out of range"))
  ∧ ∀ err, GMapsRoute_of_doc doc = Raise err →
      (find "row" doc = None
       ∧ err = TypeError "'NoneType' object is not subscriptable")
      ∨ (is_Some (find "row" doc)
         ∧ err = IndexError "child index out of range").
Proof.
  unfold GMapsRoute_of_doc. split_and!.
  - intros Hrow. unfold row_text. by rewrite Hrow.
  - intros row Hrow Hnil. unfold row_text, getitem_opt, getitem.
    by rewrite Hrow, Hnil.
  - intros err H.
    apply bind_Raise in H as [H|(time & _ & H)]; [by apply row_text_Raise in H|].
    apply bind_Raise in H as [H|(distance & _ & H)]; [by apply row_text_Raise in H|done].
Qed.

Lemma GMapsRoute_failures_witness :
  GMapsRoute_of_doc denied_response
  = Raise (TypeError "'NoneType' object is not subscriptable").
Proof. apply (proj1 (GMapsRoute_failures denied_response)). reflexivity. Defined.

(** *** The request, read back *)

Lemma string_forall_app P s1 s2 :
  string_forall P s1 → string_forall P s2 → string_forall P (s1 +:+ s2).
Proof.
  induction s1 as [|c s1 IH]; simpl; [done|].
  intros [Hc Hs] H2. split; auto.
Qed.

Lemma string_app_assoc (s1 s2 s3 : string) :
  (s1 +:+ s2) +:+ s3 = s1 +:+ (s2 +:+ s3).
Proof.
  induction s1 as [|c s1 IH]; [done|].
  change (String c ((s1 +:+ s2) +:+ s3) = String c (s1 +:+ (s2 +:+ s3))).
  by rewrite IH.
Qed.

(** A field without the separator, followed by the separator. *)
Lemma split_field sep a b :
  string_forall (λ c, c ≠ sep) a →
  split sep (a +:+ String sep b) = a :: split sep b.
Proof.
  induction a as [|c a IH]; simpl.
  - intros _. by rewrite Ascii.eqb_refl.
  - intros [Hc Ha]. rewrite (IH Ha). by apply Ascii.eqb_neq in Hc as ->.
Qed.

Lemma key_value_pair k v :
  string_forall (λ c, c ≠ "="%char) k → string_forall (λ c, c ≠ "="%char) v →
  key_value (k +:+ String "=" v) = Some (k, v).
Proof.
  intros Hk Hv. unfold key_value. by rewrite split_field, split_no_sep.
Qed.

Lemma query_safe_ne s sep :
  sep ∈ ["?"; "&"; "="]%char → query_safe s → string_forall (λ c, c ≠ sep) s.
Proof.
  intros Hsep. apply string_forall_impl. intros c (? & ? & ?).
  repeat (apply elem_of_cons in Hsep as [->|Hsep]; [done|]).
  by apply elem_of_nil in Hsep.
Qed.

(** X8: when the two formatted points and the key hold none of [?], [&]
    and [=], the request reads back as the path
    [.../distancematrix/xml] with the four parameters [origins],
    [destinations], [mode=transit] and [key], in this order, the points and
    the key unchanged. *)
Theorem GMaps_url_query {C} (str : C → string) A B key :
  query_safe (format_point str A) → query_safe (format_point str B) →
  query_safe key →
  url_path (GMaps_url str A B key)
  = Some "https://maps.googleapis.com/maps/api/distancematrix/xml"
  ∧ url_query (GMaps_url str A B key)
    = Some [Some ("origins", format_point str A);
            Some ("destinations", format_point str B);
            Some ("mode", "transit"); Some ("key", key)].
Proof.
  intros HA HB Hkey. unfold GMaps_url.
  generalize dependent (format_point str A). intros a HA.
  generalize dependent (format_point str B). intros b HB.
  assert (∀ sep, sep ∈ ["?"; "&"; "="]%char →
            string_forall (λ c, c ≠ sep) a ∧ string_forall (λ c, c ≠ sep) b
            ∧ string_forall (λ c, c ≠ sep) key) as Hne
    by (intros sep Hsep; split_and!; by apply query_safe_ne).
  destruct (Hne "?"%char ltac:(set_solver)) as (Haq & Hbq & Hkq).
  destruct (Hne "&"%char ltac:(set_solver)) as (Haa & Hba & Hka).
  destruct (Hne "="%char ltac:(set_solver)) as (Hae & Hbe & Hke).
  set (q := "origins=" +:+ a +:+ "&destinations=" +:+ b
            +:+ "&mode=transit" +:+ "&key=" +:+ key).
  change (_ +:+ q)
    with ("https://maps.googleapis.com/maps/api/distancematrix/xml"
          +:+ String "?" q).
  assert (split "?" q = [q]) as Hq.
  { apply split_no_sep. subst q.
    repeat (apply string_forall_app; [first [done|by repeat split]|]). done. }
  unfold url_path, url_query.
  rewrite split_field by (by repeat split). rewrite Hq. split; [done|].
  f_equal. subst q.
  change ("origins=" +:+ a +:+ "&destinations=" +:+ b
          +:+ "&mode=transit" +:+ "&key=" +:+ key)
    with ("origins=" +:+ (a +:+ String "&" ("destinations="
            +:+ (b +:+ String "&" ("mode=transit"
                   +:+ String "&" ("key=" +:+ key)))))).
  rewrite <-(string_app_assoc "origins=" a).
  rewrite split_field by (apply string_forall_app; [by repeat split|done]).
  rewrite <-(string_app_assoc "destinations=" b).
  rewrite split_field by (apply string_forall_app; [by repeat split|done]).
  rewrite split_field by (by repeat split).
  rewrite split_no_sep by (apply string_forall_app; [by repeat split|done]).
  simpl fmap.
  change ("origins=" +:+ a) with ("origins" +:+ String "=" a).
  change ("destinations=" +:+ b) with ("destinations" +:+ String "=" b).
  change ("key=" +:+ key) with ("key" +:+ String "=" key).
  rewrite !key_value_pair by first [done|by repeat split]. done.
Qed.

Lemma GMaps_url_query_witness :
  url_query (GMaps_url literal_str ("43.6532", "-79.3832") ("43.7764", "-79.2318")
               "AIza-key_0")
  = Some [Some ("origins", "43.6532,-79.3832");
          Some ("destinations", "43.7764,-79.2318");
          Some ("mode", "transit"); Some ("key", "AIza-key_0")].
Proof.
  apply (GMaps_url_query literal_str ("43.6532", "-79.3832")
           ("43.7764", "-79.2318") "AIza-key_0");
    unfold query_safe; simpl; repeat split; discriminate.
Defined.

(** ** The temporary files *)

Lemma string_length_app (s1 s2 : string) :
  String.length (s1 +:+ s2) = (String.length s1 + String.length s2)%nat.
Proof.
  induction s1 as [|c s1 IH]; [done|].
  change (S (String.length (s1 +:+ s2))
          = S (String.length s1 + String.length s2)). by rewrite IH.
Qed.

Lemma string_app_inv_tail (s1 s2 t : string) :
  s1 +:+ t = s2 +:+ t → s1 = s2.
Proof.
  revert s2. induction s1 as [|c s1 IH]; intros [|c' s2] Heq; [done|..].
  - apply (f_equal String.length) in Heq.
    change (String.length t = S (String.length (s2 +:+ t))) in Heq.
    rewrite string_length_app in Heq. lia.
  - apply (f_equal String.length) in Heq.
    change (S (String.length (s1 +:+ t)) = String.length t) in Heq.
    rewrite string_length_app in Heq. lia.
  - change (String c (s1 +:+ t) = String c' (s2 +:+ t)) in Heq.
    injection Heq as -> Heq. f_equal. by apply IH.
Qed.

(** The file of a route tells its number, and is not the file of the
    distance lookup. *)
Lemma route_file_name_inj n m :
  route_file_name n = route_file_name m → n = m.
Proof.
  unfold route_file_name, str_int. intros Heq.
  apply (inj (String.app "rt")) in Heq. apply string_app_inv_tail in Heq.
  by apply (inj pretty) in Heq.
Qed.

Lemma route_file_name_not_map n : route_file_name n ≠ "map.xml".
Proof. unfold route_file_name. discriminate. Qed.

Section FileProperties.
Context {F : Type} (float : string → option F).
Context {C : Type} (str : C → string).
Context {R : Type} (urlopen : string → result R) (read : R → result string).
Context (open_wb : gmap string string → string → option exn).
Context (write_close : gmap string string → string → string → option (exn * string)).
Context (open_rb : gmap string string → string → option exn).
Context (parse_bytes : string → result Element).

Lemma fetch_parse_read url data :
  urlopen url ≫= read = Ok data →
  fetch_parse urlopen read parse_bytes url = parse_bytes data.
Proof.
  unfold fetch_parse. destruct (urlopen url) as [answer|e]; simpl; [|done].
  by intros ->.
Qed.

(** What the two steps on a file do to the other files. *)
Lemma open_file_other name fs f :
  f ≠ name → (open_file open_wb name fs).1 !! f = fs !! f.
Proof.
  intros Hf. unfold open_file. destruct (open_wb fs name); simpl; [done|].
  by apply lookup_insert_ne.
Qed.

Lemma write_file_other name data fs f :
  f ≠ name → (write_file write_close name data fs).1 !! f = fs !! f.
Proof.
  intros Hf. unfold write_file.
  destruct (write_close fs name data) as [[e part]|]; simpl;
    by apply lookup_insert_ne.
Qed.

(** X9: of the directory the constructor touches the file [rt<number>.xml]
    only; the files of routes with another number and [map.xml] are as
    they were.  Nothing is written when the request or reading its answer
    fails, or when the file cannot be opened; a write that fails leaves
    the part written and raises.  When the file is written and can be
    read, it holds the body of the answer and the constructor returns
    what it builds from the parsed body: the staging changes nothing to
    the route. *)
Theorem BusRoute_init_files_effect n fs :
  let init :=
    BusRoute_init_files float urlopen read open_wb write_close open_rb
      parse_bytes in
  let name := route_file_name n in
  (∀ f, f ≠ name → (init n fs).1 !! f = fs !! f)
  ∧ (∀ m, m ≠ n → (init n fs).1 !! route_file_name m = fs !! route_file_name m)
  ∧ (init n fs).1 !! "map.xml" = fs !! "map.xml"
  ∧ (∀ e, urlopen (route_url n) ≫= read = Raise e → init n fs = (fs, Raise e))
  ∧ (∀ data e, urlopen (route_url n) ≫= read = Ok data →
       open_wb fs name = Some e → init n fs = (fs, Raise e))
  ∧ (∀ data e part, urlopen (route_url n) ≫= read = Ok data →
       open_wb fs name = None →
       write_close (<[name := ""]> fs) name data = Some (e, part) →
       init n fs = (<[name := part]> fs, Raise e))
  ∧ (∀ data e, urlopen (route_url n) ≫= read = Ok data →
       open_wb fs name = None →
       write_close (<[name := ""]> fs) name data = None →
       open_rb (<[name := data]> fs) name = Some e →
       init n fs = (<[name := data]> fs, Raise e))
  ∧ (∀ data, urlopen (route_url n) ≫= read = Ok data →
       open_wb fs name = None →
       write_close (<[name := ""]> fs) name data = None →
       open_rb (<[name := data]> fs) name = None →
       init n fs
       = (<[name := data]> fs,
          BusRoute_init float (fetch_parse urlopen read parse_bytes) n)).
Proof.
  intros init name.
  assert (∀ f, f ≠ name → (init n fs).1 !! f = fs !! f) as Hother.
  { intros f Hf. unfold init, BusRoute_init_files. fold name.
    destruct (urlopen (route_url n) ≫= read) as [data|e]; [|done].
    pose proof (open_file_other name fs f Hf) as H1.
    destruct (open_file open_wb name fs) as [fs1 [[]|e]]; [|done].
    pose proof (write_file_other name data fs1 f Hf) as H2.
    destruct (write_file write_close name data fs1) as [fs2 [[]|e]];
      simpl in *; congruence. }
  split_and!; try done.
  - intros m Hm. apply Hother. intros ?%route_file_name_inj. congruence.
  - apply Hother. intros H. by apply (route_file_name_not_map n).
  - intros e He. unfold init, BusRoute_init_files. by rewrite He.
  - intros data e Hdata Hopen. unfold init, BusRoute_init_files, open_file.
    fold name. by rewrite Hdata, Hopen.
  - intros data e part Hdata Hopen Hwrite.
    unfold init, BusRoute_init_files, open_file, write_file. fold name.
    rewrite Hdata, Hopen, Hwrite. by rewrite insert_insert_eq.
  - intros data e Hdata Hopen Hwrite Hread.
    unfold init, BusRoute_init_files, open_file, write_file, parse_file.
    fold name. rewrite Hdata, Hopen, Hwrite, insert_insert_eq. by rewrite Hread.
  - intros data Hdata Hopen Hwrite Hread.
    unfold init, BusRoute_init_files, open_file, write_file, parse_file.
    fold name. rewrite Hdata, Hopen, Hwrite, insert_insert_eq, Hread.
    rewrite lookup_insert_eq. unfold BusRoute_init.
    by rewrite (fetch_parse_read _ data).
Qed.

(** X10: of the directory the distance lookup touches [map.xml] only, the
    same file for every pair of points.  It opens the file before it reads
    the answer, so that an answer that cannot be read leaves the file
    empty; a write that fails leaves the part written.  When the file is
    written and can be read, it holds the body of the answer and the
    lookup, which parses the file twice, returns what it extracts from
    the parsed body. *)
Theorem GMapsRoute_files_effect A B key fs :
  let lookup :=
    GMapsRoute_files str urlopen read open_wb write_close open_rb
      parse_bytes A B key in
  let url := GMaps_url str A B key in
  (∀ f, f ≠ "map.xml" → (lookup fs).1 !! f = fs !! f)
  ∧ (∀ n, (lookup fs).1 !! route_file_name n = fs !! route_file_name n)
  ∧ (∀ e, urlopen url = Raise e → lookup fs = (fs, Raise e))
  ∧ (∀ answer e, urlopen url = Ok answer →
       open_wb fs "map.xml" = Some e → lookup fs = (fs, Raise e))
  ∧ (∀ answer e, urlopen url = Ok answer →
       open_wb fs "map.xml" = None → read answer = Raise e →
       lookup fs = (<["map.xml" := ""]> fs, Raise e))
  ∧ (∀ answer data e part, urlopen url = Ok answer →
       open_wb fs "map.xml" = None → read answer = Ok data →
       write_close (<["map.xml" := ""]> fs) "map.xml" data = Some (e, part) →
       lookup fs = (<["map.xml" := part]> fs, Raise e))
  ∧ (∀ answer data e, urlopen url = Ok answer →
       open_wb fs "map.xml" = None → read answer = Ok data →
       write_close (<["map.xml" := ""]> fs) "map.xml" data = None →
       open_rb (<["map.xml" := data]> fs) "map.xml" = Some e →
       lookup fs = (<["map.xml" := data]> fs, Raise e))
  ∧ (∀ answer data, urlopen url = Ok answer →
       open_wb fs "map.xml" = None → read answer = Ok data →
       write_close (<["map.xml" := ""]> fs) "map.xml" data = None →
       open_rb (<["map.xml" := data]> fs) "map.xml" = None →
       lookup fs
       = (<["map.xml" := data]> fs,
          GMapsRoute str (fetch_parse urlopen read parse_bytes) A B key)).
Proof.
  intros lookup url.
  assert (∀ f, f ≠ "map.xml" → (lookup fs).1 !! f = fs !! f) as Hother.
  { intros f Hf. unfold lookup, GMapsRoute_files. fold url.
    destruct (urlopen url) as [answer|e]; [|done].
    pose proof (open_file_other "map.xml" fs f Hf) as H1.
    destruct (open_file open_wb "map.xml" fs) as [fs1 [[]|e]]; [|done].
    destruct (read answer) as [data|e]; [|done].
    pose proof (write_file_other "map.xml" data fs1 f Hf) as H2.
    destruct (write_file write_close "map.xml" data fs1) as [fs2 [[]|e]];
      simpl in *; congruence. }
  split_and!; try done.
  - intros n. apply Hother. apply route_file_name_not_map.
  - intros e He. unfold lookup, GMapsRoute_files. fold url. by rewrite He.
  - intros answer e Hanswer Hopen. unfold lookup, GMapsRoute_files, open_file.
    fold url. by rewrite Hanswer, Hopen.
  - intros answer e Hanswer Hopen Hdata.
    unfold lookup, GMapsRoute_files, open_file. fold url.
    by rewrite Hanswer, Hopen, Hdata.
  - intros answer data e part Hanswer Hopen Hdata Hwrite.
    unfold lookup, GMapsRoute_files, open_file, write_file. fold url.
    rewrite Hanswer, Hopen, Hdata, Hwrite. by rewrite insert_insert_eq.
  - intros answer data e Hanswer Hopen Hdata Hwrite Hread.
    unfold lookup, GMapsRoute_files, open_file, write_file, parse_file.
    fold url. rewrite Hanswer, Hopen, Hdata, Hwrite, insert_insert_eq.
    by rewrite Hread.
  - intros answer data Hanswer Hopen Hdata Hwrite Hread.
    unfold lookup, GMapsRoute_files, open_file, write_file, parse_file.
    fold url. rewrite Hanswer, Hopen, Hdata, Hwrite, insert_insert_eq, Hread.
    rewrite lookup_insert_eq. unfold GMapsRoute, GMapsRoute_of_doc, fetch_parse.
    fold url. rewrite Hanswer. simpl. rewrite Hdata. simpl.
    destruct (parse_bytes data) as [doc|e]; simpl; [|done].
    by destruct (row_text doc 1).
Qed.
End FileProperties.

Lemma BusRoute_init_files_effect_witness :
  BusRoute_init_files literal_float (λ _, Ok "<body/>") Ok always_open
    always_written always_open (λ _, Ok dawes_feed) 23 ∅
  = ({[ "rt23.xml" := "<body/>" ]}, Ok dawes_route)
  ∧ BusRoute_init_files literal_float (λ _, Ok "<body/>") Ok never_open
      always_written always_open (λ _, Ok dawes_feed) 23 ∅
    = (∅, Raise (OtherError "[Errno 13] Permission denied: 'rt23.xml'")).
Proof.
  split.
  - apply (proj2 (proj2 (proj2 (proj2 (proj2 (proj2 (proj2
             (BusRoute_init_files_effect literal_float (λ _, Ok "<body/>") Ok
                always_open always_written always_open (λ _, Ok dawes_feed)
                23 ∅)))))))
           "<body/>"); reflexivity.
  - apply (proj1 (proj2 (proj2 (proj2 (proj2
             (BusRoute_init_files_effect literal_float (λ _, Ok "<body/>") Ok
                never_open always_written always_open (λ _, Ok dawes_feed)
                23 ∅)))))
           "<body/>"); reflexivity.
Defined.

Lemma GMapsRoute_files_effect_witness :
  GMapsRoute_files literal_str (λ _, Ok "<r/>") Ok always_open always_written
    always_open (λ _, Ok canned_response)
    ("43.6532", "-79.3832") ("43.7764", "-79.2318") "k" ∅
  = ({[ "map.xml" := "<r/>" ]}, Ok (Some "3.4 km", Some "12 mins"))
  ∧ GMapsRoute_files literal_str (λ _, Ok "<r/>")
      (λ _, Raise (OtherError "Connection reset by peer")) always_open
      always_written always_open (λ _, Ok canned_response)
      ("43.6532", "-79.3832") ("43.7764", "-79.2318") "k" ∅
    = ({[ "map.xml" := "" ]}, Raise (OtherError "Connection reset by peer")).
Proof.
  split.
  - apply (proj2 (proj2 (proj2 (proj2 (proj2 (proj2 (proj2
             (GMapsRoute_files_effect literal_str (λ _, Ok "<r/>") Ok
                always_open always_written always_open
                (λ _, Ok canned_response)
                ("43.6532", "-79.3832") ("43.7764", "-79.2318") "k" ∅)))))))
           "<r/>" "<r/>"); reflexivity.
  - apply (proj1 (proj2 (proj2 (proj2 (proj2
             (GMapsRoute_files_effect literal_str (λ _, Ok "<r/>")
                (λ _, Raise (OtherError "Connection reset by peer"))
                always_open always_written always_open
                (λ _, Ok canned_response)
                ("43.6532", "-79.3832") ("43.7764", "-79.2318") "k" ∅)))))
           "<r/>"); reflexivity.
Defined.

(** ** The second version *)

Section SecondVersion.
Context {F : Type} (float : string → option F).
Implicit Types (r : Second.BusRoute (F:=F)) (e : Element).

Lemma second_stop_body_Ok e r r' :
  Second.stop_body float e r = Ok r'
  ↔ ∃ bs, second_built_from float (Second.name r) e bs
          ∧ r' = {| Second.number := Second.number r;
                    Second.name := Second.name r;
                    Second._bus_stops := Second._bus_stops r ++ [bs] |}.
Proof.
  unfold Second.stop_body, second_built_from. split.
  - intros H. inv_bind H. apply py_float_Ok in H0, H1. subst r'.
    eexists. split; [|done]. by exists a, a0.
  - intros (bs & (lat & lon & Hlat & Hlon & ->) & ->).
    apply py_float_Ok in Hlat, Hlon. by rewrite Hlat; simpl; rewrite Hlon.
Qed.

Lemma second_stops_loop stops r r' :
  for_each stops (Second.stop_body float) r = Ok r'
  ↔ ∃ new, Forall2 (second_built_from float (Second.name r)) stops new
           ∧ r' = {| Second.number := Second.number r;
                     Second.name := Second.name r;
                     Second._bus_stops := Second._bus_stops r ++ new |}.
Proof.
  revert r. induction stops as [|e stops IH]; intros r; simpl.
  - split.
    + intros [= <-]. exists []. split; [constructor|].
      rewrite app_nil_r. by destruct r.
    + intros (new & ->%Forall2_nil_inv_l & ->). rewrite app_nil_r. by destruct r.
  - rewrite bind_Ok. setoid_rewrite second_stop_body_Ok. setoid_rewrite IH. split.
    + intros (r1 & (bs & Hbs & ->) & new & Hnew & ->). simpl in *.
      exists (bs :: new). split; [by constructor|]. by rewrite <-app_assoc.
    + intros (new & (bs & new' & Hbs & Hnew & ->)%Forall2_cons_inv_l & ->).
      eexists. split; [by exists bs|]. simpl. exists new'. split; [done|].
      by rewrite <-app_assoc.
Qed.

Lemma second_routes_loop routes r r' :
  for_each routes (Second.route_body float) r = Ok r'
  ↔ ∃ new, Forall2 (second_built_from float (Second.name r))
             (route_el ← routes; findall "stop" route_el) new
           ∧ r' = {| Second.number := Second.number r;
                     Second.name := Second.name r;
                     Second._bus_stops := Second._bus_stops r ++ new |}.
Proof.
  revert r. induction routes as [|route_el routes IH]; intros r; simpl.
  - split.
    + intros [= <-]. exists []. split; [constructor|].
      rewrite app_nil_r. by destruct r.
    + intros (new & ->%Forall2_nil_inv_l & ->). rewrite app_nil_r. by destruct r.
  - rewrite bind_Ok. unfold Second.route_body at 1.
    setoid_rewrite second_stops_loop. setoid_rewrite IH. split.
    + intros (r1 & (new1 & Hnew1 & ->) & new & Hnew & ->). simpl in *.
      exists (new1 ++ new). split; [by apply Forall2_app|]. by rewrite <-app_assoc.
    + intros (new & (new1 & new2 & Hnew1 & Hnew2 & ->)%Forall2_app_inv_l & ->).
      eexists. split; [by exists new1|]. simpl. exists new2. split; [done|].
      by rewrite <-app_assoc.
Qed.

(** What the second constructor returns, and when. *)
Lemma second_of_doc_Ok n _doc r :
  Second.BusRoute_of_doc float n _doc = Ok r
  ↔ ∃ first, children _doc !! 0%nat = Some first
             ∧ attrib first !! "title" = Some (Second.name r)
             ∧ Second.number r = n
             ∧ Forall2 (second_built_from float (Second.name r))
                 (feed_stops _doc) (Second._bus_stops r).
Proof.
  unfold Second.BusRoute_of_doc. rewrite bind_Ok.
  setoid_rewrite read_name_Ok. setoid_rewrite second_routes_loop. simpl. split.
  - intros (nm & (first & Hfirst & Hnm) & new & Hnew & ->). by exists first.
  - intros (first & Hfirst & Hnm & <- & Hnew). exists (Second.name r).
    split; [by exists first|]. exists (Second._bus_stops r). split; [done|].
    by destruct r.
Qed.

(** X11: on a route of the second version, [bus_stops()] gives the titles
    of the stop elements of the feed and [bus_stop_coordinates()] their
    parsed [lat] and [lon], both in the order of the feed, one entry for
    each stop element. *)
Theorem second_methods_of_feed n _doc r :
  Second.BusRoute_of_doc float n _doc = Ok r →
  Second.bus_stops r = get "title" <$> feed_stops _doc
  ∧ Forall2 (λ e c, get "lat" e ≫= float = Some c.1
                    ∧ get "lon" e ≫= float = Some c.2)
      (feed_stops _doc) (Second.bus_stop_coordinates r).
Proof.
  intros (first & _ & _ & _ & Hstops)%second_of_doc_Ok.
  unfold Second.bus_stops, Second.bus_stop_coordinates.
  induction Hstops as [|e bs es bss (lat & lon & Hlat & Hlon & ->) _ [IH1 IH2]];
    [by split; [|constructor]|].
  split; [by rewrite !fmap_cons, IH1|]. rewrite fmap_cons. by constructor.
Qed.

(** X12: the second constructor returns a route exactly when the root has
    a first child with a title and the [lat] and [lon] of every stop
    element are there and parse; direction elements are not looked at.
    Without a title on the first child it raises [NameError], like the
    first. *)
Theorem second_succeeds_iff n _doc :
  (is_Ok (Second.BusRoute_of_doc float n _doc)
   ↔ (∃ first nm, children _doc !! 0%nat = Some first
                  ∧ attrib first !! "title" = Some nm)
     ∧ ∀ e, e ∈ feed_stops _doc →
            is_Some (get "lat" e ≫= float) ∧ is_Some (get "lon" e ≫= float))
  ∧ ∀ first, children _doc !! 0%nat = Some first →
             attrib first !! "title" = None →
             Second.BusRoute_of_doc float n _doc
             = Raise (NameError "name 'route_name' is not defined").
Proof.
  split.
  - split.
    + intros [r (first & Hfirst & Hnm & _ & Hstops)%second_of_doc_Ok]. split.
      * by exists first, (Second.name r).
      * intros e (i & Hi)%list_elem_of_lookup.
        destruct (Forall2_lookup_l _ _ _ _ _ Hstops Hi)
          as (bs & _ & lat & lon & -> & -> & _). by split; eexists.
    + intros ((first & nm & Hfirst & Hnm) & Hstops).
      assert (∃ new, Forall2 (second_built_from float nm) (feed_stops _doc) new)
        as [new Hnew].
      { induction (feed_stops _doc) as [|e es IH]; [by exists []|].
        destruct IH as [new Hnew]; [intros e' He'; apply Hstops; by right|].
        destruct (Hstops e) as [[lat Hlat] [lon Hlon]]; [by left|].
        eexists (_ :: new). constructor; [|done]. by exists lat, lon. }
      exists {| Second.number := n; Second.name := nm; Second._bus_stops := new |}.
      apply second_of_doc_Ok. by exists first.
  - intros first Hfirst Htitle. unfold Second.BusRoute_of_doc.
    by rewrite (read_name_no_title _ first).
Qed.

(** X13: whenever the first constructor returns a route, the second
    returns, for the same document, the route with the same number, name
    and stops, the stops without their tags. *)
Theorem second_agrees_with_first n _doc (r : BusRoute (F:=F)) :
  BusRoute_of_doc float n _doc = Ok r →
  Second.BusRoute_of_doc float n _doc
  = Ok {| Second.number := number r; Second.name := name r;
          Second._bus_stops := untagged <$> bus_stops r |}.
Proof.
  intros ((first & Hfirst & Hnm) & Hnumber & Hstops & _)%BusRoute_of_doc_Ok.
  apply second_of_doc_Ok. exists first. simpl. split_and!; try done.
  apply Forall2_fmap_r. eapply Forall2_impl; [done|].
  intros e bs Hbs. unfold built_from, stop_of_element in Hbs.
  destruct (get "lat" e ≫= float) as [lat|] eqn:Hlat; [|done].
  destruct (get "lon" e ≫= float) as [lon|] eqn:Hlon; [|done].
  simpl in Hbs. injection Hbs as <-. by exists lat, lon.
Qed.
End SecondVersion.

Lemma second_methods_of_feed_witness :
  Second.bus_stops
    {| Second.number := 23%Z; Second.name := "23-Dawes";
       Second._bus_stops := untagged <$> bus_stops dawes_route |}
  = get "title" <$> feed_stops dawes_feed.
Proof.
  apply (second_methods_of_feed literal_float 23 dawes_feed).
  vm_compute; reflexivity.
Defined.

Lemma second_agrees_with_first_witness :
  Second.BusRoute_of_doc literal_float 23 dawes_feed
  = Ok {| Second.number := 23%Z; Second.name := "23-Dawes";
          Second._bus_stops := untagged <$> bus_stops dawes_route |}.
Proof.
  apply (second_agrees_with_first literal_float 23 dawes_feed dawes_route).
  vm_compute; reflexivity.
Defined.

Lemma second_succeeds_iff_witness :
  Second.BusRoute_of_doc literal_float 999 error_feed
  = Raise (NameError "name 'route_name' is not defined").
Proof.
  apply (proj2 (second_succeeds_iff literal_float 999 error_feed)
           {| tag := "Error"; attrib := {["shouldRetry" := "false"]};
              text := Some "Could not get route 999 for agency tag ttc";
              children := [] |}); reflexivity.
Defined.
